(** * Social NFT: the upload page and the gallery page

    A shallow embedding of the two React pages of the application,
    src/app/page.tsx (the upload form, [Home]) and the page of the /feed
    route (the gallery, [Feed]; its lines are cited as feed:n), and the
    properties of section 8 of the design document.

    - [JS]      : the ECMAScript built-ins the handlers call
                  (String.prototype.toLowerCase / includes / trim / slice,
                  Number.prototype.toString, Array.prototype.sort, truthiness);
    - [Effect]  : a state-and-exception monad for async handlers with
                  try / catch / finally;
    - the browser: session storage, the clock behind Date.now(), the network
                  behind fetch, the wallet provider, timers and alerts;
    - [Home]    : uploadImageToPinata, storeImage;
    - [Feed]    : initializeSDK, loadImages, connectWallet, mintNFT,
                  filteredImages.

    Strings are byte strings (UTF-8 text); the case mapping and the white
    space recognised by [JS.trim] are those of the ASCII range.  Time values
    are integers.  Handlers run to completion: the pages disable their
    buttons while a handler is pending, so one handler invocation is one
    transition of the world.  Console output is not modelled. *)

From Stdlib Require Import ZArith String Ascii List Lia Permutation Sorted.
From Stdlib Require DecimalString DecimalZ DecimalFacts HexadecimalString.
From stdpp Require Import gmap strings list fin_maps.

Local Open Scope Z_scope.

(** String append unfolds on a constructor, as list append does. *)
Arguments String.append !s1 s2 : simpl nomatch.

(** ** The [StoredImage] interface (page.tsx:6-11, feed:9-14) *)

Record StoredImage := {
  id : string;
  image : string;
  description : string;
  timestamp : Z;
}.

(** ** ECMAScript built-ins *)

Module JS.

(** [!!s] for a string: only the empty string is falsy. *)
Definition truthy (s : string) : bool :=
  match s with EmptyString => false | String _ _ => true end.

(** [!!x] for a value that may be [null] / [undefined] or a string. *)
Definition truthy_opt (x : option string) : bool :=
  match x with Some s => truthy s | None => false end.

(** [`${x}`] on such a value. *)
Definition template (x : option string) : string :=
  match x with Some s => s | None => "undefined" end.

(** [x || d] on such a value. *)
Definition or_else (x : option string) (d : string) : string :=
  match x with
  | Some s => if truthy s then s else d
  | None => d
  end.

Definition is_upper (c : ascii) : bool :=
  let n := nat_of_ascii c in ((65 <=? n) && (n <=? 90))%nat.

Definition lower_char (c : ascii) : ascii :=
  if is_upper c then ascii_of_nat (nat_of_ascii c + 32) else c.

(** [s.toLowerCase()] *)
Fixpoint toLowerCase (s : string) : string :=
  match s with
  | EmptyString => EmptyString
  | String c s' => String (lower_char c) (toLowerCase s')
  end.

(** [s.startsWith(t)] *)
Fixpoint startsWith (s t : string) {struct t} : bool :=
  match t with
  | EmptyString => true
  | String b t' =>
      match s with
      | EmptyString => false
      | String a s' => if Ascii.eqb a b then startsWith s' t' else false
      end
  end.

(** [s.includes(t)] *)
Fixpoint includes (s t : string) : bool :=
  startsWith s t ||
  match s with
  | EmptyString => false
  | String _ s' => includes s' t
  end.

(** White space and line terminators stripped by [trim] (TAB, LF, VT, FF,
    CR, SP). *)
Definition isWhiteSpace (c : ascii) : bool :=
  let n := nat_of_ascii c in ((9 <=? n) && (n <=? 13) || (n =? 32))%nat.

Fixpoint trimStart (s : string) : string :=
  match s with
  | EmptyString => EmptyString
  | String c s' => if isWhiteSpace c then trimStart s' else s
  end.

(** Drops the trailing white space: a character is kept when it is not
    white space or when something is kept after it. *)
Fixpoint trimEnd (s : string) : string :=
  match s with
  | EmptyString => EmptyString
  | String c s' =>
      match trimEnd s' with
      | EmptyString => if isWhiteSpace c then EmptyString else String c EmptyString
      | r => String c r
      end
  end.

(** [s.trim()] *)
Definition trim (s : string) : string := trimEnd (trimStart s).

(** [s] without its first [n] characters. *)
Fixpoint skip (n : nat) (s : string) : string :=
  match n, s with
  | O, _ => s
  | Datatypes.S n', String _ s' => skip n' s'
  | Datatypes.S _, EmptyString => EmptyString
  end.

(** [s.replace(pattern, replacement)] for a string [pattern] and a
    [replacement] without [$] patterns: the first occurrence of [pattern]
    is replaced, and a text without occurrence is returned as it is. *)
Fixpoint replace (s pattern replacement : string) : string :=
  if startsWith s pattern then
    replacement +:+ skip (String.length pattern) s
  else
    match s with
    | EmptyString => EmptyString
    | String c s' => String c (replace s' pattern replacement)
    end.

(** [s.slice(0, n)] *)
Definition slice0 (n : nat) (s : string) : string := substring 0 n s.

(** [`${n}`] and [n.toString()] for an integral number. *)
Definition Number_toString (n : Z) : string :=
  DecimalString.NilZero.string_of_int (Z.to_int n).

(** [n.toString(16)] for a non-negative integral number. *)
Definition Number_toString16 (n : N) : string :=
  HexadecimalString.NilZero.string_of_uint (N.to_hex_uint n).

(** [Array.prototype.sort(compareFn)].  The sort is stable, and for a
    consistent comparator the result is the one stable sorted arrangement;
    it is computed here by insertion: [x] goes before the first element
    that does not have to precede it. *)
Section Sort.
Context {A : Type} (compareFn : A -> A -> Z).

Fixpoint insert_sorted (x : A) (l : list A) : list A :=
  match l with
  | [] => [x]
  | y :: l' =>
      if compareFn x y <=? 0 then x :: y :: l'
      else y :: insert_sorted x l'
  end.

Fixpoint Array_sort (l : list A) : list A :=
  match l with
  | [] => []
  | x :: l' => insert_sorted x (Array_sort l')
  end.
End Sort.

End JS.

(** ** Handlers as computations: state passing with exceptions *)

Module Effect.

(** A thrown value, as far as the handlers look at it: [error?.message]. *)
Record Exn := { message : option string }.

(** [new Error(msg)] *)
Definition Error (msg : string) : Exn := {| message := Some msg |}.

Inductive Completion (A : Type) : Type :=
| Return (a : A)
| Throw (e : Exn).
Arguments Return {A} a.
Arguments Throw {A} e.

Definition M (S A : Type) : Type := S -> Completion A * S.

Section Ops.
Context {S : Type}.

Definition ret {A} (a : A) : M S A := fun s => (Return a, s).

Definition bind {A B} (m : M S A) (k : A -> M S B) : M S B :=
  fun s =>
    match m s with
    | (Return a, s') => k a s'
    | (Throw e, s') => (Throw e, s')
    end.

Definition throw {A} (e : Exn) : M S A := fun s => (Throw e, s).

Definition get : M S S := fun s => (Return s, s).

Definition modify (f : S -> S) : M S unit := fun s => (Return tt, f s).

(** [try { m } catch (error) { handler error }] *)
Definition try_catch {A} (m : M S A) (handler : Exn -> M S A) : M S A :=
  fun s =>
    match m s with
    | (Return a, s') => (Return a, s')
    | (Throw e, s') => handler e s'
    end.

(** [try { m } finally { cleanup }]: the cleanup runs on both exits and
    the completion of [m] stands unless the cleanup throws. *)
Definition try_finally {A} (m : M S A) (cleanup : M S unit) : M S A :=
  fun s =>
    match m s with
    | (c, s') =>
        match cleanup s' with
        | (Return _, s'') => (c, s'')
        | (Throw e, s'') => (Throw e, s'')
        end
    end.
End Ops.

(** The world a handler leaves behind, and how it completed. *)
Definition exec {S A} (m : M S A) (s : S) : S := snd (m s).
Definition completion {S A} (m : M S A) (s : S) : Completion A := fst (m s).

Declare Scope effect_scope.
Delimit Scope effect_scope with effect.
Notation "x <- c ;; k" := (bind c (fun x => k))
  (at level 100, c at next level, right associativity) : effect_scope.
Notation "c ;; k" := (bind c (fun _ => k))
  (at level 100, right associativity) : effect_scope.

End Effect.

Import Effect.
Local Open Scope effect_scope.

(** ** The browser around the pages *)

(** What [fetch] is given and what it gives back. *)
Module Http.

(** A [File] picked in the form. *)
Record File := { file_name : string; file_bytes : string }.

(** The request [fetch] is called with; [body] is the FormData. *)
Record FetchRequest := {
  url : string;
  method : string;
  headers : list (string * string);
  body : list (string * File);
}.

(** The members of a pinning-service response body that the code reads:
    [data.IpfsHash] and [errorData?.error?.details]. *)
Record PinataBody := {
  IpfsHash : option string;
  error_details : option string;
}.

(** [await response.json()] rejects when the body is not JSON. *)
Inductive JsonBody :=
| BodyRejects (e : Exn)
| BodyResolves (b : PinataBody).

Record Response := { ok : bool; status : Z; json : JsonBody }.

(** [await fetch(...)] rejects on a network failure. *)
Inductive FetchResult :=
| FetchRejects (e : Exn)
| FetchResolves (r : Response).

End Http.
Import Http.

(** One element of [calls] and the payload of [wallet_sendCalls]. *)
Record Call := { to : string; data : string; value : string }.

Record SendCallsParams := {
  version : string;
  atomicRequired : bool;
  chainId : string;
  from : string;
  calls : list Call;
}.

(** The argument of [provider.request]. *)
Record RpcRequest := { rpc_method : string; params : list SendCallsParams }.

(** What the wallet answers to the [n]-th request, per method.  [None] for an
    account list is a [null] result. *)
Record Wallet := {
  on_wallet_connect : nat -> Exn + unit;
  on_eth_requestAccounts : nat -> Exn + option (list string);
  on_eth_accounts : nat -> Exn + option (list string);
  on_wallet_sendCalls : nat -> SendCallsParams -> Exn + string;
}.

(** Callbacks handed to [setTimeout]. *)
Inductive TimerAction :=
| RouterPush (path : string)
| DeleteMintStatus (imageId : string).

Record Browser := {
  env_PINATA_JWT : option string;  (* process.env.NEXT_PUBLIC_PINATA_JWT *)
  sessionStorage : gmap string string;
  clock : nat -> Z;                (* successive readings of Date.now() *)
  clock_reads : nat;
  network : nat -> FetchRequest -> FetchResult;
  fetch_log : list FetchRequest;   (* requests issued so far, oldest first *)
  wallet : Wallet;
  rpc_log : list RpcRequest;       (* provider requests so far, oldest first *)
  timers : list (TimerAction * Z);
  alerts : list string;
}.

(** A page's React state together with the browser. *)
Record World (P : Type) := { page : P; browser : Browser }.
Arguments page {P} w.
Arguments browser {P} w.

(** Updates of one member of the browser. *)
Definition store_item (key value : string) (b : Browser) : Browser :=
  {| env_PINATA_JWT := env_PINATA_JWT b;
     sessionStorage := <[key := value]> (sessionStorage b);
     clock := clock b; clock_reads := clock_reads b;
     network := network b; fetch_log := fetch_log b;
     wallet := wallet b; rpc_log := rpc_log b;
     timers := timers b; alerts := alerts b |}.

Definition tick (b : Browser) : Browser :=
  {| env_PINATA_JWT := env_PINATA_JWT b;
     sessionStorage := sessionStorage b;
     clock := clock b; clock_reads := Datatypes.S (clock_reads b);
     network := network b; fetch_log := fetch_log b;
     wallet := wallet b; rpc_log := rpc_log b;
     timers := timers b; alerts := alerts b |}.

Definition push_fetch (req : FetchRequest) (b : Browser) : Browser :=
  {| env_PINATA_JWT := env_PINATA_JWT b;
     sessionStorage := sessionStorage b;
     clock := clock b; clock_reads := clock_reads b;
     network := network b; fetch_log := fetch_log b ++ [req];
     wallet := wallet b; rpc_log := rpc_log b;
     timers := timers b; alerts := alerts b |}.

Definition push_rpc (req : RpcRequest) (b : Browser) : Browser :=
  {| env_PINATA_JWT := env_PINATA_JWT b;
     sessionStorage := sessionStorage b;
     clock := clock b; clock_reads := clock_reads b;
     network := network b; fetch_log := fetch_log b;
     wallet := wallet b; rpc_log := rpc_log b ++ [req];
     timers := timers b; alerts := alerts b |}.

Definition push_timer (callback : TimerAction) (delay : Z) (b : Browser)
  : Browser :=
  {| env_PINATA_JWT := env_PINATA_JWT b;
     sessionStorage := sessionStorage b;
     clock := clock b; clock_reads := clock_reads b;
     network := network b; fetch_log := fetch_log b;
     wallet := wallet b; rpc_log := rpc_log b;
     timers := timers b ++ [(callback, delay)]; alerts := alerts b |}.

Definition push_alert (text : string) (b : Browser) : Browser :=
  {| env_PINATA_JWT := env_PINATA_JWT b;
     sessionStorage := sessionStorage b;
     clock := clock b; clock_reads := clock_reads b;
     network := network b; fetch_log := fetch_log b;
     wallet := wallet b; rpc_log := rpc_log b;
     timers := timers b; alerts := alerts b ++ [text] |}.

Section BrowserOps.
Context {P : Type}.

Definition with_page (f : P -> P) (w : World P) : World P :=
  {| page := f (page w); browser := browser w |}.

Definition with_browser (f : Browser -> Browser) (w : World P) : World P :=
  {| page := page w; browser := f (browser w) |}.

(** A state setter [setX(v)]. *)
Definition setState (f : P -> P) : M (World P) unit := modify (with_page f).

(** [sessionStorage.getItem(key)] *)
Definition sessionStorage_getItem (key : string) : M (World P) (option string) :=
  w <- get ;; ret (sessionStorage (browser w) !! key).

(** [sessionStorage.setItem(key, value)] *)
Definition sessionStorage_setItem (key value : string) : M (World P) unit :=
  modify (with_browser (store_item key value)).

(** [Date.now()] *)
Definition Date_now : M (World P) Z :=
  w <- get ;;
  modify (with_browser tick) ;;
  ret (clock (browser w) (clock_reads (browser w))).

(** [await fetch(url, init)]: the request is recorded and the network's
    answer to it is returned or thrown. *)
Definition fetch (req : FetchRequest) : M (World P) Response :=
  w <- get ;;
  modify (with_browser (push_fetch req)) ;;
  match network (browser w) (length (fetch_log (browser w))) req with
  | FetchRejects e => throw e
  | FetchResolves r => ret r
  end.

(** [await response.json()] *)
Definition Response_json (r : Response) : M (World P) PinataBody :=
  match json r with
  | BodyRejects e => throw e
  | BodyResolves b => ret b
  end.

(** [await provider.request({ method, params })]: the request is recorded
    and the wallet's answer to it is returned or thrown. *)
Definition provider_request {A} (req : RpcRequest)
    (answer : Wallet -> nat -> Exn + A) : M (World P) A :=
  w <- get ;;
  modify (with_browser (push_rpc req)) ;;
  match answer (wallet (browser w)) (length (rpc_log (browser w))) with
  | inl e => throw e
  | inr a => ret a
  end.

(** [setTimeout(callback, delay)] *)
Definition setTimeout (callback : TimerAction) (delay : Z) : M (World P) unit :=
  modify (with_browser (push_timer callback delay)).

(** [alert(text)] *)
Definition alert (text : string) : M (World P) unit :=
  modify (with_browser (push_alert text)).
End BrowserOps.

(** ** Library interfaces *)

(** [JSON.stringify] and [JSON.parse] at the type the pages use them,
    [StoredImage[]].  [inl e] is a parse that throws [e] (a SyntaxError).
    The pages cast the parsed value to [StoredImage[]]; text that is JSON of
    another shape is outside this typed model. *)
Class JSON := {
  JSON_stringify : list StoredImage -> string;
  JSON_parse : string -> Exn + list StoredImage;
}.

(** What the pages rely on: a stringified list parses back to itself, and a
    stringified list is never the empty string. *)
Class JSONLaws {codec : JSON} : Prop := {
  parse_stringify : forall l, JSON_parse (JSON_stringify l) = inr l;
  stringify_truthy : forall l, JS.truthy (JSON_stringify l) = true;
}.

(** One parameter of an ABI function and one ABI function description. *)
Record AbiParameter := {
  internalType : string;
  param_name : string;
  param_type : string;
}.

Record AbiFunction := {
  inputs : list AbiParameter;
  name : string;
  outputs : list AbiParameter;
  stateMutability : string;
  type : string;
}.

(** viem's [encodeFunctionData({ abi, functionName, args })]: the call data
    as a hex string. *)
Class Viem := {
  encodeFunctionData : list AbiFunction -> string -> list string -> string;
}.

(** The session-storage key both pages use. *)
Definition STORED_IMAGES : string := "stored_images".

(** The text under that key. *)
Definition stored_text {P} (w : World P) : option string :=
  sessionStorage (browser w) !! STORED_IMAGES.

(** U+2713, U+274C and U+1F389 in UTF-8. *)
Definition CHECK_MARK : string := String "226" (String "156" (String "147" "")).
Definition CROSS_MARK : string := String "226" (String "157" (String "140" "")).
Definition PARTY_POPPER : string :=
  String "240" (String "159" (String "142" (String "137" ""))).

(** ** page.tsx: the upload form *)

Module Home.

Record State := {
  description : string;
  imageFile : option File;
  loading : bool;
  status : string;
  uploadingImage : bool;
}.

(** The [useState] initial values. *)
Definition initial : State :=
  {| description := ""; imageFile := None; loading := false;
     status := "Ready to store images"; uploadingImage := false |}.

Definition with_description (v : string) (s : State) : State :=
  {| description := v; imageFile := imageFile s; loading := loading s;
     status := status s; uploadingImage := uploadingImage s |}.

Definition setDescription (v : string) : M (World State) unit :=
  setState (with_description v).

Definition with_imageFile (v : option File) (s : State) : State :=
  {| description := description s; imageFile := v; loading := loading s;
     status := status s; uploadingImage := uploadingImage s |}.

Definition setImageFile (v : option File) : M (World State) unit :=
  setState (with_imageFile v).

Definition with_loading (v : bool) (s : State) : State :=
  {| description := description s; imageFile := imageFile s; loading := v;
     status := status s; uploadingImage := uploadingImage s |}.

Definition setLoading (v : bool) : M (World State) unit :=
  setState (with_loading v).

Definition with_status (v : string) (s : State) : State :=
  {| description := description s; imageFile := imageFile s;
     loading := loading s; status := v;
     uploadingImage := uploadingImage s |}.

Definition setStatus (v : string) : M (World State) unit :=
  setState (with_status v).

Definition with_uploadingImage (v : bool) (s : State) : State :=
  {| description := description s; imageFile := imageFile s;
     loading := loading s; status := status s; uploadingImage := v |}.

Definition setUploadingImage (v : bool) : M (World State) unit :=
  setState (with_uploadingImage v).

Definition PINATA_ENDPOINT : string :=
  "https://api.pinata.cloud/pinning/pinFileToIPFS".

Definition MSG_NOT_CONFIGURED : string :=
  "Pinata JWT not configured. Add NEXT_PUBLIC_PINATA_JWT to .env.local".

(** The request of page.tsx:34-43. *)
Definition pinFileRequest (jwt : string) (file : File) : FetchRequest :=
  {| url := PINATA_ENDPOINT;
     method := "POST";
     headers := [("Authorization", "Bearer " +:+ jwt)];
     body := [("file", file)] |}.

(** page.tsx:21-69 *)
Definition uploadImageToPinata (file : File) : M (World State) string :=
  try_finally
    (try_catch
       (setUploadingImage true ;;
        w <- get ;;
        let NEXT_PUBLIC_PINATA_JWT := env_PINATA_JWT (browser w) in
        (if negb (JS.truthy_opt NEXT_PUBLIC_PINATA_JWT) then
           throw (Error MSG_NOT_CONFIGURED)
         else ret tt) ;;
        response <- fetch (pinFileRequest
                             (JS.template NEXT_PUBLIC_PINATA_JWT) file) ;;
        (if negb (ok response) then
           errorData <- Response_json response ;;
           throw (Error ("Pinata upload failed ("
                           +:+ JS.Number_toString (Http.status response)
                           +:+ "): "
                           +:+ JS.or_else (error_details errorData)
                                 "Unknown error"))
         else ret tt) ;;
        data <- Response_json response ;;
        (if negb (JS.truthy_opt (IpfsHash data)) then
           throw (Error "No IPFS hash returned from Pinata")
         else ret tt) ;;
        let ipfsHash := IpfsHash data in
        ret ("ipfs://" +:+ JS.template ipfsHash))
       (fun error =>
          let errorMsg := JS.or_else (message error) "Image upload failed" in
          throw (Error errorMsg)))
    (setUploadingImage false).

Definition MSG_SELECT : string :=
  "Please select an image and add a description".

Definition MSG_STORED : string :=
  CHECK_MARK +:+ " Image stored permanently on IPFS!".

Section WithJSON.
Context {codec : JSON}.

(** page.tsx:91-92, the read of the stored list: empty when the key is
    absent or holds the empty string. *)
Definition readAll : M (World State) (list StoredImage) :=
  existingImages <- sessionStorage_getItem STORED_IMAGES ;;
  match existingImages with
  | Some text =>
      if JS.truthy text then
        match JSON_parse text with
        | inl e => throw e
        | inr l => ret l
        end
      else ret []
  | None => ret []
  end.

(** page.tsx:91-94, the store's append: read the list, put the new record
    in front, write the whole list back. *)
Definition append (newImage : StoredImage) : M (World State) unit :=
  images <- readAll ;;
  let updatedImages := newImage :: images in
  sessionStorage_setItem STORED_IMAGES (JSON_stringify updatedImages).

(** page.tsx:71-110 *)
Definition storeImage : M (World State) unit :=
  w <- get ;;
  let description := description (page w) in
  match imageFile (page w) with
  | None => setStatus MSG_SELECT                      (* !imageFile *)
  | Some imageFile =>
      if negb (JS.truthy (JS.trim description))       (* !description.trim() *)
      then setStatus MSG_SELECT
      else
        setLoading true ;;
        setStatus "Uploading image to IPFS..." ;;
        try_finally
          (try_catch
             (imageIpfsUrl <- uploadImageToPinata imageFile ;;
              setStatus "Storing image permanently..." ;;
              now_id <- Date_now ;;
              now_timestamp <- Date_now ;;
              let newImage :=
                Build_StoredImage (JS.Number_toString now_id)
                  imageIpfsUrl description now_timestamp in
              append newImage ;;
              setStatus MSG_STORED ;;
              setImageFile None ;;
              setDescription "" ;;
              setTimeout (RouterPush "/feed") 2000)
             (fun error =>
                let errorMsg := JS.or_else (message error) "Unknown error" in
                setStatus ("Storage failed: " +:+ errorMsg)))
          (setLoading false)
  end.

(** What the user does on the page. *)
Inductive Event :=
| SelectFile (file : option File)      (* onChange of the file input *)
| TypeDescription (text : string)      (* onChange of the text area *)
| ClickStore.                          (* onClick of the store button *)

Definition handle (ev : Event) : M (World State) unit :=
  match ev with
  | SelectFile file => setImageFile file
  | TypeDescription text => setDescription text
  | ClickStore => storeImage
  end.

Definition run (evs : list Event) (w : World State) : World State :=
  fold_left (fun w ev => exec (handle ev) w) evs w.

(** The world after appending [records], oldest first. *)
Definition after_appends (records : list StoredImage) (w : World State)
  : World State :=
  fold_left (fun w r => exec (append r) w) records w.
End WithJSON.

End Home.


(** ** The gallery page *)

Module Feed.

(** The handle [sdkInstance.getProvider()] returns. *)
Inductive Provider := BaseAccountProvider.

Record State := {
  images : list StoredImage;
  loading : bool;
  searchTerm : string;
  provider : option Provider;
  connected : bool;
  subAccountAddress : option string;   (* [None] is [undefined] *)
  universalAddress : option string;
  connectLoading : bool;
  mintingImageId : option string;
  mintStatus : gmap string string;
}.

(** The [useState] initial values. *)
Definition initial : State :=
  {| images := []; loading := true; searchTerm := ""; provider := None;
     connected := false; subAccountAddress := Some "";
     universalAddress := Some ""; connectLoading := false;
     mintingImageId := None; mintStatus := ∅ |}.

Definition NFT_CONTRACT_ADDRESS : string :=
  "0x54396910e3a670a9C4F75d5314192EA897491C3c".

Definition NFT_CONTRACT_ABI : list AbiFunction :=
  [ {| inputs := [ {| internalType := "string"; param_name := "tokenURI";
                      param_type := "string" |} ];
       name := "mintNFT";
       outputs := [];
       stateMutability := "nonpayable";
       type := "function" |} ].

(** [baseSepolia.id] of viem/chains. *)
Definition baseSepolia_id : N := 84532.

Definition with_images (v : list StoredImage) (s : State) : State :=
  {| images := v; loading := loading s; searchTerm := searchTerm s;
     provider := provider s; connected := connected s;
     subAccountAddress := subAccountAddress s;
     universalAddress := universalAddress s;
     connectLoading := connectLoading s;
     mintingImageId := mintingImageId s; mintStatus := mintStatus s |}.

Definition setImages (v : list StoredImage) : M (World State) unit :=
  setState (with_images v).

Definition with_loading (v : bool) (s : State) : State :=
  {| images := images s; loading := v; searchTerm := searchTerm s;
     provider := provider s; connected := connected s;
     subAccountAddress := subAccountAddress s;
     universalAddress := universalAddress s;
     connectLoading := connectLoading s;
     mintingImageId := mintingImageId s; mintStatus := mintStatus s |}.

Definition setLoading (v : bool) : M (World State) unit :=
  setState (with_loading v).

Definition with_searchTerm (v : string) (s : State) : State :=
  {| images := images s; loading := loading s; searchTerm := v;
     provider := provider s; connected := connected s;
     subAccountAddress := subAccountAddress s;
     universalAddress := universalAddress s;
     connectLoading := connectLoading s;
     mintingImageId := mintingImageId s; mintStatus := mintStatus s |}.

Definition setSearchTerm (v : string) : M (World State) unit :=
  setState (with_searchTerm v).

Definition with_provider (v : option Provider) (s : State) : State :=
  {| images := images s; loading := loading s; searchTerm := searchTerm s;
     provider := v; connected := connected s;
     subAccountAddress := subAccountAddress s;
     universalAddress := universalAddress s;
     connectLoading := connectLoading s;
     mintingImageId := mintingImageId s; mintStatus := mintStatus s |}.

Definition setProvider (v : option Provider) : M (World State) unit :=
  setState (with_provider v).

Definition with_connected (v : bool) (s : State) : State :=
  {| images := images s; loading := loading s; searchTerm := searchTerm s;
     provider := provider s; connected := v;
     subAccountAddress := subAccountAddress s;
     universalAddress := universalAddress s;
     connectLoading := connectLoading s;
     mintingImageId := mintingImageId s; mintStatus := mintStatus s |}.

Definition setConnected (v : bool) : M (World State) unit :=
  setState (with_connected v).

Definition with_subAccountAddress (v : option string) (s : State) : State :=
  {| images := images s; loading := loading s; searchTerm := searchTerm s;
     provider := provider s; connected := connected s;
     subAccountAddress := v;
     universalAddress := universalAddress s;
     connectLoading := connectLoading s;
     mintingImageId := mintingImageId s; mintStatus := mintStatus s |}.

Definition setSubAccountAddress (v : option string) : M (World State) unit :=
  setState (with_subAccountAddress v).

Definition with_universalAddress (v : option string) (s : State) : State :=
  {| images := images s; loading := loading s; searchTerm := searchTerm s;
     provider := provider s; connected := connected s;
     subAccountAddress := subAccountAddress s;
     universalAddress := v;
     connectLoading := connectLoading s;
     mintingImageId := mintingImageId s; mintStatus := mintStatus s |}.

Definition setUniversalAddress (v : option string) : M (World State) unit :=
  setState (with_universalAddress v).

Definition with_connectLoading (v : bool) (s : State) : State :=
  {| images := images s; loading := loading s; searchTerm := searchTerm s;
     provider := provider s; connected := connected s;
     subAccountAddress := subAccountAddress s;
     universalAddress := universalAddress s;
     connectLoading := v;
     mintingImageId := mintingImageId s; mintStatus := mintStatus s |}.

Definition setConnectLoading (v : bool) : M (World State) unit :=
  setState (with_connectLoading v).

Definition with_mintingImageId (v : option string) (s : State) : State :=
  {| images := images s; loading := loading s; searchTerm := searchTerm s;
     provider := provider s; connected := connected s;
     subAccountAddress := subAccountAddress s;
     universalAddress := universalAddress s;
     connectLoading := connectLoading s;
     mintingImageId := v; mintStatus := mintStatus s |}.

Definition setMintingImageId (v : option string) : M (World State) unit :=
  setState (with_mintingImageId v).

Definition update_mintStatus (f : gmap string string -> gmap string string)
    (s : State) : State :=
  {| images := images s; loading := loading s; searchTerm := searchTerm s;
     provider := provider s; connected := connected s;
     subAccountAddress := subAccountAddress s;
     universalAddress := universalAddress s;
     connectLoading := connectLoading s;
     mintingImageId := mintingImageId s; mintStatus := f (mintStatus s) |}.

(** [setMintStatus(prev => f(prev))] *)
Definition setMintStatus (f : gmap string string -> gmap string string)
  : M (World State) unit :=
  setState (update_mintStatus f).

(** feed:43-64.  [createBaseAccountSDK] may throw; the failure is logged
    and the provider stays [null]. *)
Definition initializeSDK (createBaseAccountSDK : Exn + Provider)
  : M (World State) unit :=
  try_catch
    (providerInstance <- (match createBaseAccountSDK with
                          | inl e => throw e
                          | inr p => ret p
                          end) ;;
     setProvider (Some providerInstance))
    (fun error => ret tt).

(** The page as it mounts in a tab. *)
Definition mount (b : Browser) : World State :=
  {| page := initial; browser := b |}.

Section WithJSON.
Context {codec : JSON}.

(** feed:67-86 *)
Definition loadImages : M (World State) unit :=
  try_finally
    (try_catch
       (storedImages <- sessionStorage_getItem STORED_IMAGES ;;
        match storedImages with
        | Some text =>
            if JS.truthy text then
              parsedImages <- (match JSON_parse text with
                               | inl e => throw e
                               | inr l => ret l
                               end) ;;
              let sortedImages :=
                JS.Array_sort (fun a b => timestamp b - timestamp a)
                  parsedImages in
              setImages sortedImages
            else ret tt
        | None => ret tt
        end)
       (fun error => ret tt))
    (setLoading false).
End WithJSON.

(** What [accounts[0]] throws when [accounts] is [null]. *)
Definition TypeError_null : Exn := Error "Cannot read properties of null".

(** feed:88-127 *)
Definition connectWallet : M (World State) unit :=
  w <- get ;;
  match provider (page w) with
  | None => ret tt
  | Some _ =>
      setConnectLoading true ;;
      try_finally
        (try_catch
           (provider_request {| rpc_method := "wallet_connect"; params := [] |}
              on_wallet_connect ;;
            accounts <- provider_request
                          {| rpc_method := "eth_requestAccounts"; params := [] |}
                          on_eth_requestAccounts ;;
            match accounts with
            | None => throw TypeError_null
            | Some accounts =>
                let subAddr := head accounts in
                let universalAddr :=
                  if JS.truthy_opt (accounts !! 1%nat) then accounts !! 1%nat
                  else head accounts in
                setSubAccountAddress subAddr ;;
                setUniversalAddress universalAddr ;;
                setConnected true
            end)
           (fun error => alert "Failed to connect wallet. Please try again."))
        (setConnectLoading false)
  end.

Definition MSG_CONNECT_FIRST : string := "Please connect wallet first".

Definition MSG_NOT_INITIALIZED : string :=
  "Sub-account not properly initialized. Please reconnect.".

(** The classification of feed:197-209. *)
Definition mintErrorMsg (error : Exn) : string :=
  match message error with
  | Some m =>
      if JS.truthy m then
        if JS.includes m "no matching signer" then
          "Sub-account not ready. Please reconnect wallet."
        else if JS.includes m "insufficient" then
          "Insufficient funds for gas"
        else if JS.includes m "rejected" || JS.includes m "denied" then
          "Transaction rejected"
        else JS.slice0 50 m
      else "Mint failed"
  | None => "Mint failed"
  end.

Section WithViem.
Context {viem : Viem}.

(** The payload of feed:164-176. *)
Definition sendCallsParams (subAccountAddress : string) (mintData : string)
  : SendCallsParams :=
  {| version := "2.0";
     atomicRequired := true;
     chainId := "0x" +:+ JS.Number_toString16 baseSepolia_id;
     from := subAccountAddress;
     calls := [ {| to := NFT_CONTRACT_ADDRESS;
                   data := mintData;
                   value := "0x0" |} ] |}.

(** [accounts[0] !== subAccountAddress] once [accounts] is a non-empty
    array. *)
Definition first_differs (accounts : list string) (subAccountAddress : string)
  : bool :=
  match accounts with
  | [] => true
  | first :: _ => negb (String.eqb first subAccountAddress)
  end.

(** feed:129-226 *)
Definition mintNFT (img : StoredImage) : M (World State) unit :=
  w <- get ;;
  match provider (page w), subAccountAddress (page w) with
  | Some _, Some subAccountAddress =>         (* provider is not null *)
      if JS.truthy subAccountAddress then     (* the address is not empty *)
        setMintingImageId (Some (id img)) ;;
        setMintStatus (fun prev => <[id img := "Preparing transaction..."]> prev) ;;
        try_finally
          (try_catch
             (accounts <- provider_request
                            {| rpc_method := "eth_accounts"; params := [] |}
                            on_eth_accounts ;;
              (match accounts with
               | Some accounts =>
                   if first_differs accounts subAccountAddress
                   then throw (Error MSG_NOT_INITIALIZED)
                   else ret tt
               | None => throw (Error MSG_NOT_INITIALIZED)
               end) ;;
              let mintData :=
                encodeFunctionData NFT_CONTRACT_ABI "mintNFT" [image img] in
              setMintStatus (fun prev => <[id img := "Confirm in wallet..."]> prev) ;;
              let payload := sendCallsParams subAccountAddress mintData in
              callsId <- provider_request
                           {| rpc_method := "wallet_sendCalls";
                              params := [payload] |}
                           (fun wlt n => on_wallet_sendCalls wlt n payload) ;;
              setMintStatus (fun prev =>
                <[id img := CHECK_MARK +:+ " NFT Minted Successfully! "
                                +:+ PARTY_POPPER]> prev) ;;
              setTimeout (DeleteMintStatus (id img)) 8000)
             (fun error =>
                let errorMsg := mintErrorMsg error in
                setMintStatus (fun prev =>
                  <[id img := CROSS_MARK +:+ " " +:+ errorMsg]> prev) ;;
                setTimeout (DeleteMintStatus (id img)) 8000))
          (setMintingImageId None)
      else
        setMintStatus (fun prev => <[id img := MSG_CONNECT_FIRST]> prev)
  | _, _ =>
      setMintStatus (fun prev => <[id img := MSG_CONNECT_FIRST]> prev)
  end.
End WithViem.

(** feed:228-232, the predicate given to [images.filter]. *)
Definition matchesSearch (searchTerm : string) (image : StoredImage) : bool :=
  if String.eqb searchTerm "" then true
  else JS.includes (JS.toLowerCase (description image))
                   (JS.toLowerCase searchTerm).

(** feed:228-232.  The filtered list is recomputed at each render from the
    state; [Array.prototype.filter] builds a new array. *)
Definition filteredImages : M (World State) (list StoredImage) :=
  w <- get ;;
  ret (List.filter (fun image => matchesSearch (searchTerm (page w)) image)
         (images (page w))).

(** feed:186-192 and feed:216-222, the callback both branches of [mintNFT]
    hand to [setTimeout]: a copy of the statuses without the record's. *)
Definition deleteMintStatus (imageId : string) : M (World State) unit :=
  setMintStatus (fun prev => delete imageId prev).

Definition GATEWAY : string := "https://gateway.pinata.cloud/ipfs/".

(** feed:234-239 *)
Definition getImageUrl (ipfsUrl : string) : string :=
  if JS.startsWith ipfsUrl "ipfs://" then
    GATEWAY +:+ JS.replace ipfsUrl "ipfs://" ""
  else ipfsUrl.

End Feed.


(** ** A reader and writer for the stored text

    [JSON.stringify] as it writes a [StoredImage[]] (members in insertion
    order, no white space, strings quoted by QuoteJSONString, integral
    numbers in decimal), and a reader of exactly these texts.  Text of any
    other layout is reported as a syntax error by this reader; it serves to
    run the pages on concrete sessions, and the properties below are stated
    for every [JSON] instance that satisfies [JSONLaws]. *)

Module CanonicalJSON.

Definition DQUOTE : ascii := "034"%char.
Definition BACKSLASH : ascii := "092"%char.

Definition hex_digit (n : nat) : ascii :=
  match String.get n "0123456789abcdef" with
  | Some c => c
  | None => "0"%char
  end.

(** The escape of one character in QuoteJSONString. *)
Definition escape_char (c : ascii) : string :=
  let n := nat_of_ascii c in
  if (n =? 34)%nat then String BACKSLASH (String DQUOTE "")
  else if (n =? 92)%nat then String BACKSLASH (String BACKSLASH "")
  else if (n =? 8)%nat then String BACKSLASH "b"
  else if (n =? 9)%nat then String BACKSLASH "t"
  else if (n =? 10)%nat then String BACKSLASH "n"
  else if (n =? 12)%nat then String BACKSLASH "f"
  else if (n =? 13)%nat then String BACKSLASH "r"
  else if (n <? 32)%nat then
    String BACKSLASH
      (String "u" (String "0" (String "0"
         (String (hex_digit (n / 16)) (String (hex_digit (n mod 16)) "")))))
  else String c "".

Fixpoint escape (s : string) : string :=
  match s with
  | EmptyString => EmptyString
  | String c s' => escape_char c +:+ escape s'
  end.

Definition quote (s : string) : string :=
  String DQUOTE (escape s +:+ String DQUOTE "").

Definition KEY_ID : string := "{" +:+ quote "id" +:+ ":".
Definition KEY_IMAGE : string := "," +:+ quote "image" +:+ ":".
Definition KEY_DESCRIPTION : string := "," +:+ quote "description" +:+ ":".
Definition KEY_TIMESTAMP : string := "," +:+ quote "timestamp" +:+ ":".

Definition stringify_image (r : StoredImage) : string :=
  KEY_ID +:+ quote (id r)
  +:+ KEY_IMAGE +:+ quote (image r)
  +:+ KEY_DESCRIPTION +:+ quote (description r)
  +:+ KEY_TIMESTAMP +:+ JS.Number_toString (timestamp r)
  +:+ "}".

(** The elements after the first, each behind its comma, and the closing
    bracket. *)
Fixpoint stringify_rest (l : list StoredImage) : string :=
  match l with
  | [] => "]"
  | r :: l' => "," +:+ stringify_image r +:+ stringify_rest l'
  end.

Definition stringify (l : list StoredImage) : string :=
  match l with
  | [] => "[]"
  | r :: l' => "[" +:+ stringify_image r +:+ stringify_rest l'
  end.

(** *** Reading *)

(** [expect lit s]: [s] without its prefix [lit]. *)
Fixpoint expect (lit s : string) {struct lit} : option string :=
  match lit with
  | EmptyString => Some s
  | String a lit' =>
      match s with
      | EmptyString => None
      | String b s' => if Ascii.eqb a b then expect lit' s' else None
      end
  end.

Definition unhex (c : ascii) : option nat :=
  let n := nat_of_ascii c in
  if ((48 <=? n) && (n <=? 57))%nat then Some (n - 48)%nat
  else if ((97 <=? n) && (n <=? 102))%nat then Some (n - 87)%nat
  else if ((65 <=? n) && (n <=? 70))%nat then Some (n - 55)%nat
  else None.

(** The code unit of [\uXXXX], when it is in the ASCII range. *)
Definition unhex4 (a b c d : ascii) : option ascii :=
  match unhex a, unhex b, unhex c, unhex d with
  | Some x, Some y, Some z, Some t =>
      let n := (((x * 16 + y) * 16 + z) * 16 + t)%nat in
      if (n <? 128)%nat then Some (ascii_of_nat n) else None
  | _, _, _, _ => None
  end.

Definition push (c : ascii) (r : option (string * string))
  : option (string * string) :=
  match r with
  | Some (s, rest) => Some (String c s, rest)
  | None => None
  end.

(** The characters of a string literal up to its closing quote, and the
    text after it. *)
Fixpoint read_chars (s : string) : option (string * string) :=
  match s with
  | EmptyString => None
  | String c s' =>
      if Ascii.eqb c DQUOTE then Some (EmptyString, s')
      else if Ascii.eqb c BACKSLASH then
        match s' with
        | EmptyString => None
        | String e s'' =>
            if Ascii.eqb e DQUOTE then push DQUOTE (read_chars s'')
            else if Ascii.eqb e BACKSLASH then push BACKSLASH (read_chars s'')
            else if Ascii.eqb e "/" then push "/" (read_chars s'')
            else if Ascii.eqb e "b" then push "008" (read_chars s'')
            else if Ascii.eqb e "t" then push "009" (read_chars s'')
            else if Ascii.eqb e "n" then push "010" (read_chars s'')
            else if Ascii.eqb e "f" then push "012" (read_chars s'')
            else if Ascii.eqb e "r" then push "013" (read_chars s'')
            else if Ascii.eqb e "u" then
              match s'' with
              | String h1 (String h2 (String h3 (String h4 s3))) =>
                  match unhex4 h1 h2 h3 h4 with
                  | Some c' => push c' (read_chars s3)
                  | None => None
                  end
              | _ => None
              end
            else None
        end
      else if (nat_of_ascii c <? 32)%nat then None
      else push c (read_chars s')
  end.

Definition read_string (s : string) : option (string * string) :=
  match s with
  | String c s' => if Ascii.eqb c DQUOTE then read_chars s' else None
  | EmptyString => None
  end.

Definition digit_of (c : ascii) : option (Decimal.uint -> Decimal.uint) :=
  match nat_of_ascii c with
  | 48%nat => Some Decimal.D0 | 49%nat => Some Decimal.D1
  | 50%nat => Some Decimal.D2 | 51%nat => Some Decimal.D3
  | 52%nat => Some Decimal.D4 | 53%nat => Some Decimal.D5
  | 54%nat => Some Decimal.D6 | 55%nat => Some Decimal.D7
  | 56%nat => Some Decimal.D8 | 57%nat => Some Decimal.D9
  | _ => None
  end.

(** The longest run of digits at the front of [s], and the text after it. *)
Fixpoint read_digits (s : string) : Decimal.uint * string :=
  match s with
  | EmptyString => (Decimal.Nil, EmptyString)
  | String c s' =>
      match digit_of c with
      | Some d => let (u, rest) := read_digits s' in (d u, rest)
      | None => (Decimal.Nil, s)
      end
  end.

(** [rest] does not go on with a digit. *)
Definition ends_number (rest : string) : Prop :=
  match rest with
  | EmptyString => True
  | String c _ => digit_of c = None
  end.

(** A digit run is a JSON integer when it is not empty and has no
    superfluous leading zero. *)
Definition canonical (u : Decimal.uint) : bool :=
  Decimal.uint_beq (Decimal.unorm u) u.

Definition read_int (s : string) : option (Z * string) :=
  match s with
  | String "-" s' =>
      let (u, rest) := read_digits s' in
      if canonical u then Some (Z.of_int (Decimal.Neg u), rest) else None
  | _ =>
      let (u, rest) := read_digits s in
      if canonical u then Some (Z.of_int (Decimal.Pos u), rest) else None
  end.

Definition read_image (s : string) : option (StoredImage * string) :=
  s1 ← expect KEY_ID s;
  '(v_id, s2) ← read_string s1;
  s3 ← expect KEY_IMAGE s2;
  '(v_image, s4) ← read_string s3;
  s5 ← expect KEY_DESCRIPTION s4;
  '(v_description, s6) ← read_string s5;
  s7 ← expect KEY_TIMESTAMP s6;
  '(v_timestamp, s8) ← read_int s7;
  s9 ← expect "}" s8;
  Some (Build_StoredImage v_id v_image v_description v_timestamp, s9).

(** The elements after the first up to the closing bracket, which must end
    the text.  [fuel] bounds the number of elements. *)
Fixpoint read_rest (fuel : nat) (s : string) : option (list StoredImage) :=
  match s with
  | String "]" EmptyString => Some []
  | String "," s' =>
      match fuel with
      | O => None
      | Datatypes.S fuel' =>
          '(r, s'') ← read_image s';
          l ← read_rest fuel' s'';
          Some (r :: l)
      end
  | _ => None
  end.

Definition read (s : string) : option (list StoredImage) :=
  match s with
  | String "[" (String "]" EmptyString) => Some []
  | String "[" s' =>
      '(r, s'') ← read_image s';
      l ← read_rest (String.length s'') s'';
      Some (r :: l)
  | _ => None
  end.

(** The message is the engine's. *)
Definition SyntaxError : Exn := Error "Unexpected token in JSON".

Definition parse (s : string) : Exn + list StoredImage :=
  match read s with
  | Some l => inr l
  | None => inl SyntaxError
  end.

Definition json : JSON :=
  {| JSON_stringify := stringify; JSON_parse := parse |}.

End CanonicalJSON.


(** ** Notions the properties are stated with *)

(** Newest first: no record is older than the record after it. *)
Definition newest_first (l : list StoredImage) : Prop :=
  forall (i : nat) a b,
    l !! i = Some a -> l !! Datatypes.S i = Some b ->
    timestamp b <= timestamp a.




(** The storage holds the text of [l], or nothing when [l] is empty. *)
Definition holds_list {codec : JSON} (w : World Home.State)
    (l : list StoredImage) : Prop :=
  stored_text w = None /\ l = [] \/ stored_text w = Some (JSON_stringify l).

(** The session list under a clock that never goes back: it is held by the
    storage, it is newest first, and each timestamp is a clock reading
    already taken. *)
Definition session_in_order {codec : JSON} (w : World Home.State)
    (l : list StoredImage) : Prop :=
  holds_list w l /\
  Sorted (fun a b => timestamp b - timestamp a <= 0) l /\
  Forall (fun r =>
            exists k, (k < clock_reads (browser w))%nat /\
                      timestamp r = clock (browser w) k) l.

(** The number of presses of the store button among the events. *)
Fixpoint clicks (evs : list Home.Event) : nat :=
  match evs with
  | [] => O
  | Home.ClickStore :: evs' => Datatypes.S (clicks evs')
  | _ :: evs' => clicks evs'
  end.


(** A stand-in for viem's encoder, to run [mintNFT] on examples: it names
    the function and its arguments instead of hashing and padding them. *)
Definition symbolic_encoder : Viem :=
  {| encodeFunctionData := fun _ functionName args =>
       "0x" +:+ functionName +:+ "(" +:+ String.concat "," args +:+ ")" |}.


(** ** A concrete session *)

Module Example.

Definition photo : File := {| file_name := "cat.png"; file_bytes := "PNG" |}.

(** A pinning service that pins every upload under the same hash. *)
Definition pinning (n : nat) (req : FetchRequest) : FetchResult :=
  FetchResolves
    {| ok := true; status := 200;
       json := BodyResolves {| IpfsHash := Some "QmHash";
                               error_details := None |} |}.

(** A wallet with a sub account and a universal account that approves
    every request. *)
Definition approving : Wallet :=
  {| on_wallet_connect := fun _ => inr tt;
     on_eth_requestAccounts := fun _ => inr (Some ["0xSub"; "0xUniversal"]);
     on_eth_accounts := fun _ => inr (Some ["0xSub"; "0xUniversal"]);
     on_wallet_sendCalls := fun _ _ => inr "0xCallsId" |}.

(** A clock that advances by a millisecond at each reading, and one that
    stands still. *)
Definition ticking (n : nat) : Z := 1700000000000 + Z.of_nat n.
Definition frozen (n : nat) : Z := 1700000000000.

Definition tab (jwt : option string) (storage : gmap string string)
    (clock : nat -> Z) : Browser :=
  {| env_PINATA_JWT := jwt; sessionStorage := storage;
     clock := clock; clock_reads := 0;
     network := pinning; fetch_log := [];
     wallet := approving; rpc_log := [];
     timers := []; alerts := [] |}.

(** The same tab behind another network or with another wallet. *)
Definition with_network (net : nat -> FetchRequest -> FetchResult)
    (b : Browser) : Browser :=
  {| env_PINATA_JWT := env_PINATA_JWT b; sessionStorage := sessionStorage b;
     clock := clock b; clock_reads := clock_reads b;
     network := net; fetch_log := fetch_log b;
     wallet := wallet b; rpc_log := rpc_log b;
     timers := timers b; alerts := alerts b |}.

Definition with_wallet (wlt : Wallet) (b : Browser) : Browser :=
  {| env_PINATA_JWT := env_PINATA_JWT b; sessionStorage := sessionStorage b;
     clock := clock b; clock_reads := clock_reads b;
     network := network b; fetch_log := fetch_log b;
     wallet := wlt; rpc_log := rpc_log b;
     timers := timers b; alerts := alerts b |}.

(** A pinning service that refuses the credential, one that answers
    without a hash, and a network that is down. *)
Definition refusing (n : nat) (req : FetchRequest) : FetchResult :=
  FetchResolves
    {| ok := false; status := 401;
       json := BodyResolves {| IpfsHash := None;
                               error_details := Some "Invalid token" |} |}.


Definition offline (n : nat) (req : FetchRequest) : FetchResult :=
  FetchRejects (Error "Failed to fetch").

(** A wallet whose user declines the call, one that lists no account, and
    one that cannot be connected. *)
Definition declining : Wallet :=
  {| on_wallet_connect := fun _ => inr tt;
     on_eth_requestAccounts := fun _ => inr (Some ["0xSub"; "0xUniversal"]);
     on_eth_accounts := fun _ => inr (Some ["0xSub"; "0xUniversal"]);
     on_wallet_sendCalls := fun _ _ => inl (Error "User rejected the request") |}.


Definition locked : Wallet :=
  {| on_wallet_connect := fun _ => inl (Error "Popup closed");
     on_eth_requestAccounts := fun _ => inr (Some ["0xSub"; "0xUniversal"]);
     on_eth_accounts := fun _ => inr (Some ["0xSub"; "0xUniversal"]);
     on_wallet_sendCalls := fun _ _ => inr "0xCallsId" |}.

(** The upload page in such a tab. *)
Definition home (b : Browser) : World Home.State :=
  {| page := Home.initial; browser := b |}.

(** Pick the photo, describe it, press the button. *)
Definition store_photo (text : string) : list Home.Event :=
  [Home.SelectFile (Some photo); Home.TypeDescription text; Home.ClickStore].

(** The gallery page with a connected wallet. *)
Definition connected_feed (b : Browser) : World Feed.State :=
  {| page := Feed.with_provider (Some Feed.BaseAccountProvider)
               (Feed.with_subAccountAddress (Some "0xSub") Feed.initial);
     browser := b |}.

(** The upload page with the photo picked and described. *)
Definition filled (b : Browser) : World Home.State :=
  {| page := Home.with_description "A cat"
               (Home.with_imageFile (Some photo) Home.initial);
     browser := b |}.

(** The gallery page once the SDK has given its provider. *)
Definition feed_with_provider (b : Browser) : World Feed.State :=
  {| page := Feed.with_provider (Some Feed.BaseAccountProvider) Feed.initial;
     browser := b |}.

Definition cat : StoredImage :=
  {| id := "1700000000000"; image := "ipfs://QmHash";
     description := "A cat"; timestamp := 1700000000000 |}.

Definition dog : StoredImage :=
  {| id := "1700000000500"; image := "ipfs://QmDog";
     description := "The DOG"; timestamp := 1700000000500 |}.

End Example.


(** * Properties *)

(** ** Strings *)

Lemma append_assoc (a b c : string) : (a +:+ b) +:+ c = a +:+ (b +:+ c).
Proof. induction a as [|x a IH]; simpl; [reflexivity | now rewrite IH]. Qed.

Lemma append_empty_r (a : string) : a +:+ "" = a.
Proof. induction a as [|x a IH]; simpl; [reflexivity | now rewrite IH]. Qed.

Lemma startsWith_spec (s t : string) :
  JS.startsWith s t = true <-> exists post, s = t +:+ post.
Proof.
  revert s. induction t as [|b t IH]; intros s; simpl.
  - split; [intros _; now exists s | reflexivity].
  - destruct s as [|a s].
    + split; [discriminate | intros [post Hp]; discriminate].
    + destruct (Ascii.eqb_spec a b) as [->|Hne].
      * rewrite IH. split; intros [post Hp]; exists post.
        -- now rewrite Hp.
        -- now inversion Hp.
      * split; [discriminate | intros [post Hp]; inversion Hp; contradiction].
Qed.








(** ** The gallery filter *)




(** ** Sorting *)

Section SortFacts.
Context {A : Type} (compareFn : A -> A -> Z).

Lemma insert_sorted_Permutation (x : A) (l : list A) :
  Permutation (JS.insert_sorted compareFn x l) (x :: l).
Proof.
  induction l as [|y l IH]; simpl; [reflexivity|].
  destruct (compareFn x y <=? 0); [reflexivity|].
  rewrite IH. apply perm_swap.
Qed.

Lemma Array_sort_Permutation (l : list A) :
  Permutation (JS.Array_sort compareFn l) l.
Proof.
  induction l as [|x l IH]; simpl; [reflexivity|].
  rewrite insert_sorted_Permutation. now constructor.
Qed.

Lemma Array_sort_length (l : list A) :
  length (JS.Array_sort compareFn l) = length l.
Proof. apply Permutation_length, Array_sort_Permutation. Qed.

(** The comparator is total: of two elements, one may stand before the
    other. *)
Hypothesis compareFn_total : forall x y, 0 < compareFn x y -> compareFn y x <= 0.

Lemma insert_sorted_Sorted (x : A) (l : list A) :
  Sorted (fun x y => compareFn x y <= 0) l -> Sorted (fun x y => compareFn x y <= 0) (JS.insert_sorted compareFn x l).
Proof.
  induction 1 as [|y l Hl IH Hhd]; simpl.
  - repeat constructor.
  - destruct (Z.leb_spec (compareFn x y) 0) as [Hle|Hgt].
    + constructor; [now constructor | now constructor].
    + constructor; [exact IH|].
      destruct Hhd as [|z l Hyz]; simpl.
      * constructor. now apply compareFn_total.
      * destruct (compareFn x z <=? 0); constructor;
          [now apply compareFn_total | assumption].
Qed.

Lemma Array_sort_Sorted (l : list A) :
  Sorted (fun x y => compareFn x y <= 0) (JS.Array_sort compareFn l).
Proof.
  induction l as [|x l IH]; simpl; [constructor|].
  now apply insert_sorted_Sorted.
Qed.
End SortFacts.

Lemma Sorted_newest_first (l : list StoredImage) :
  Sorted (fun a b => timestamp b - timestamp a <= 0) l ->
  newest_first l.
Proof.
  induction 1 as [|x l Hl IH Hhd]; intros i a b Ha Hb.
  - discriminate.
  - destruct i as [|i]; simpl in Ha, Hb.
    + injection Ha as <-. destruct Hhd as [|y l Hxy]; [discriminate|].
      injection Hb as <-. lia.
    + exact (IH i a b Ha Hb).
Qed.

Lemma sort_by_timestamp_newest_first (l : list StoredImage) :
  newest_first (JS.Array_sort (fun a b => timestamp b - timestamp a) l).
Proof.
  apply Sorted_newest_first, Array_sort_Sorted. intros x y. lia.
Qed.

(** ** Numbers as text *)

Lemma to_int_normal (z : Z) : Decimal.norm (Z.to_int z) = Z.to_int z.
Proof. now rewrite <- DecimalZ.to_of, DecimalZ.of_to. Qed.





(** ** The reader reads what the writer writes *)

Module CanonicalJSONFacts.
Import CanonicalJSON.

Lemma expect_app (lit rest : string) : expect lit (lit +:+ rest) = Some rest.
Proof.
  induction lit as [|a lit IH]; simpl; [reflexivity|].
  now rewrite Ascii.eqb_refl.
Qed.

Lemma read_chars_escape_char (c : ascii) (tail : string) :
  read_chars (escape_char c +:+ tail) = push c (read_chars tail).
Proof.
  destruct c as [[] [] [] [] [] [] [] []]; reflexivity.
Qed.

Lemma read_chars_escape (s rest : string) :
  read_chars (escape s +:+ String DQUOTE rest) = Some (s, rest).
Proof.
  induction s as [|c s IH]; simpl.
  - reflexivity.
  - now rewrite append_assoc, read_chars_escape_char, IH.
Qed.

Lemma read_string_quote (s rest : string) :
  read_string (quote s +:+ rest) = Some (s, rest).
Proof.
  unfold quote. simpl. rewrite append_assoc. simpl.
  apply read_chars_escape.
Qed.

Lemma read_digits_string_of_uint (d : Decimal.uint) (rest : string) :
  ends_number rest ->
  read_digits (DecimalString.NilEmpty.string_of_uint d +:+ rest) = (d, rest).
Proof.
  intros Hrest. induction d; simpl; try (now rewrite IHd).
  destruct rest as [|c rest]; simpl; [reflexivity|].
  simpl in Hrest. now rewrite Hrest.
Qed.

#[local] Arguments Z.of_int : simpl never.

Lemma canonical_unorm (d : Decimal.uint) :
  Decimal.unorm d = d -> canonical d = true.
Proof.
  intros Hd. unfold canonical. rewrite Hd.
  now apply Decimal.internal_uint_dec_lb.
Qed.

Lemma read_int_Pos (d : Decimal.uint) (rest : string) :
  d <> Decimal.Nil -> Decimal.unorm d = d -> ends_number rest ->
  read_int (DecimalString.NilEmpty.string_of_uint d +:+ rest)
  = Some (Z.of_int (Decimal.Pos d), rest).
Proof.
  intros Hnil Hd Hrest. unfold read_int.
  destruct d; try contradiction; simpl;
    rewrite read_digits_string_of_uint by assumption;
    now rewrite canonical_unorm by exact Hd.
Qed.

Lemma read_int_Neg (d : Decimal.uint) (rest : string) :
  Decimal.unorm d = d -> ends_number rest ->
  read_int (String "-" (DecimalString.NilEmpty.string_of_uint d +:+ rest))
  = Some (Z.of_int (Decimal.Neg d), rest).
Proof.
  intros Hd Hrest. unfold read_int.
  rewrite read_digits_string_of_uint by assumption.
  now rewrite canonical_unorm by exact Hd.
Qed.

Lemma read_int_Number_toString (z : Z) (rest : string) :
  ends_number rest ->
  read_int (JS.Number_toString z +:+ rest) = Some (z, rest).
Proof.
  intros Hrest. unfold JS.Number_toString.
  pose proof (to_int_normal z) as Hnorm.
  rewrite <- (DecimalZ.of_to z) at 2.
  destruct (Z.to_int z) as [d|d]; simpl in Hnorm.
  - injection Hnorm as Hd.
    assert (Hnil : d <> Decimal.Nil) by (intros ->; discriminate).
    rewrite <- read_int_Pos by assumption.
    unfold DecimalString.NilZero.string_of_int,
           DecimalString.NilZero.string_of_uint.
    now destruct d.
  - assert (Hnil : d <> Decimal.Nil).
    { intros ->. discriminate. }
    assert (Hu : Decimal.unorm d = d).
    { unfold Decimal.unorm. destruct (Decimal.nzhead d); try discriminate;
        now injection Hnorm. }
    rewrite <- read_int_Neg by assumption.
    unfold DecimalString.NilZero.string_of_int,
           DecimalString.NilZero.string_of_uint.
    now destruct d.
Qed.

Lemma stringify_image_head (r : StoredImage) (rest : string) :
  exists t, stringify_image r +:+ rest = String "{" t.
Proof. unfold stringify_image, KEY_ID. rewrite !append_assoc. simpl. eauto. Qed.

#[local] Arguments quote : simpl never.
#[local] Arguments JS.Number_toString : simpl never.
#[local] Opaque KEY_ID KEY_IMAGE KEY_DESCRIPTION KEY_TIMESTAMP.

Lemma read_image_stringify (r : StoredImage) (rest : string) :
  read_image (stringify_image r +:+ rest) = Some (r, rest).
Proof.
  unfold read_image, stringify_image.
  rewrite !append_assoc.
  repeat (rewrite expect_app; cbn [mbind option_bind];
          rewrite read_string_quote; cbn [mbind option_bind]).
  rewrite expect_app. cbn [mbind option_bind].
  rewrite read_int_Number_toString by reflexivity. cbn [mbind option_bind].
  rewrite (expect_app "}"). cbn [mbind option_bind].
  now destruct r.
Qed.

Lemma read_rest_stringify (l : list StoredImage) (fuel : nat) :
  (length l <= fuel)%nat -> read_rest fuel (stringify_rest l) = Some l.
Proof.
  revert fuel. induction l as [|r l IH]; intros fuel Hfuel.
  - now destruct fuel.
  - destruct fuel as [|fuel]; [simpl in Hfuel; lia|].
    cbn [stringify_rest].
    change (String.append "," ?x) with (String "," x).
    cbn [read_rest]. rewrite read_image_stringify. cbn [mbind option_bind].
    rewrite IH by (simpl in Hfuel; lia). reflexivity.
Qed.

Lemma length_app (a b : string) :
  String.length (a +:+ b) = (String.length a + String.length b)%nat.
Proof. induction a as [|x a IH]; simpl; [reflexivity | now rewrite IH]. Qed.

Lemma stringify_rest_length (l : list StoredImage) :
  (length l <= String.length (stringify_rest l))%nat.
Proof.
  induction l as [|r l IH]; simpl; [lia|].
  rewrite length_app. lia.
Qed.

Lemma read_stringify (l : list StoredImage) : read (stringify l) = Some l.
Proof.
  destruct l as [|r l]; [reflexivity|].
  unfold stringify, read.
  change ("[" +:+ stringify_image r +:+ stringify_rest l)
    with (String "[" (stringify_image r +:+ stringify_rest l)).
  destruct (stringify_image_head r (stringify_rest l)) as [t Ht].
  rewrite Ht at 1. cbv iota beta.
  rewrite read_image_stringify. cbn [mbind option_bind].
  now rewrite read_rest_stringify by apply stringify_rest_length.
Qed.

Lemma stringify_nonempty (l : list StoredImage) : JS.truthy (stringify l) = true.
Proof. now destruct l. Qed.

End CanonicalJSONFacts.

Lemma CanonicalJSON_laws : @JSONLaws CanonicalJSON.json.
Proof.
  split.
  - intros l. simpl. unfold CanonicalJSON.parse.
    now rewrite CanonicalJSONFacts.read_stringify.
  - exact CanonicalJSONFacts.stringify_nonempty.
Qed.


(** ** Running the handlers *)

(** Unfolds the monad and the browser primitives. *)
Ltac run_effect :=
  cbv [bind ret throw get modify try_catch try_finally exec completion
       setState sessionStorage_getItem sessionStorage_setItem Date_now fetch
       Response_json provider_request setTimeout alert
       Home.setDescription Home.setImageFile Home.setLoading Home.setStatus
       Home.setUploadingImage
       Feed.setImages Feed.setLoading Feed.setSearchTerm Feed.setProvider
       Feed.setConnected Feed.setSubAccountAddress Feed.setUniversalAddress
       Feed.setConnectLoading Feed.setMintingImageId Feed.setMintStatus].

(** ** The upload *)

Lemma upload_not_configured (file : File) (w : World Home.State) :
  JS.truthy_opt (env_PINATA_JWT (browser w)) = false ->
  Home.uploadImageToPinata file w
  = (Throw (Error Home.MSG_NOT_CONFIGURED),
     with_page (Home.with_uploadingImage false) w).
Proof.
  intros Hjwt. unfold Home.uploadImageToPinata. run_effect. simpl.
  now rewrite Hjwt.
Qed.

(** One case split on the scrutinee of the outermost pending [match]. *)
Ltac split_match :=
  match goal with
  | |- context [match ?x with _ => _ end] =>
      lazymatch x with
      | context [match _ with _ => _ end] => fail
      | _ => destruct x eqn:?
      end
  end.

Section HomeFacts.
Context {codec : JSON}.

Lemma upload_success (file : File) (w : World Home.State)
    (jwt hash : string) (response : Response) (data : PinataBody) :
  env_PINATA_JWT (browser w) = Some jwt ->
  JS.truthy jwt = true ->
  network (browser w) (length (fetch_log (browser w)))
    (Home.pinFileRequest jwt file) = FetchResolves response ->
  ok response = true ->
  json response = BodyResolves data ->
  IpfsHash data = Some hash ->
  JS.truthy hash = true ->
  Home.uploadImageToPinata file w
  = (Return ("ipfs://" +:+ hash),
     with_browser (push_fetch (Home.pinFileRequest jwt file))
       (with_page (Home.with_uploadingImage false) w)).
Proof.
  intros Henv Hjwt Hnet Hok Hjson Hhash Htruthy.
  unfold Home.uploadImageToPinata. run_effect. simpl.
  rewrite Henv. simpl. rewrite Hjwt. simpl. rewrite Hnet, Hok. simpl.
  rewrite Hjson, Hhash. simpl. now rewrite Htruthy.
Qed.

(** The read of the stored list looks at the storage only. *)
Lemma readAll_absent (w : World Home.State) :
  stored_text w = None -> Home.readAll w = (Return [], w).
Proof.
  unfold stored_text, Home.readAll. run_effect. now intros ->.
Qed.

Lemma readAll_throws (w : World Home.State) (text : string) (e : Exn) :
  stored_text w = Some text -> JS.truthy text = true ->
  JSON_parse text = inl e ->
  Home.readAll w = (Throw e, w).
Proof.
  unfold stored_text, Home.readAll. run_effect.
  intros -> Htext Hparse. now rewrite Htext, Hparse.
Qed.

Lemma readAll_parsed (w : World Home.State) (text : string)
    (l : list StoredImage) :
  stored_text w = Some text -> JS.truthy text = true ->
  JSON_parse text = inr l ->
  Home.readAll w = (Return l, w).
Proof.
  unfold stored_text, Home.readAll. run_effect.
  intros -> Htext Hparse. now rewrite Htext, Hparse.
Qed.

(** An append is the read followed by the write of the longer list. *)
Lemma append_after_read (r : StoredImage) (l : list StoredImage)
    (w : World Home.State) :
  Home.readAll w = (Return l, w) ->
  Home.append r w
  = (Return tt,
     with_browser (store_item STORED_IMAGES (JSON_stringify (r :: l))) w).
Proof.
  intros Hread. unfold Home.append.
  unfold bind at 1. rewrite Hread. reflexivity.
Qed.

Lemma append_read_throws (r : StoredImage) (e : Exn) (w : World Home.State) :
  Home.readAll w = (Throw e, w) -> Home.append r w = (Throw e, w).
Proof.
  intros Hread. unfold Home.append. unfold bind at 1. now rewrite Hread.
Qed.

(** What a click on the store button does to the browser: it completes
    normally and leaves the clock alone; either nothing is stored, or the
    record made of the next two clock readings is put in front of the list
    that was read. *)
Lemma storeImage_cases (w : World Home.State) :
  let w' := exec Home.storeImage w in
  let n := clock_reads (browser w) in
  completion Home.storeImage w = Return tt /\
  clock (browser w') = clock (browser w) /\
  ((sessionStorage (browser w') = sessionStorage (browser w) /\
    (n <= clock_reads (browser w'))%nat /\
    Home.status (page w') <> Home.MSG_STORED)
   \/
   (exists hash l,
      completion Home.readAll w = Return l /\
      sessionStorage (browser w')
      = <[STORED_IMAGES :=
            JSON_stringify
              (Build_StoredImage
                 (JS.Number_toString (clock (browser w) n))
                 ("ipfs://" +:+ hash) (Home.description (page w))
                 (clock (browser w) (Datatypes.S n)) :: l)]>
          (sessionStorage (browser w)) /\
      clock_reads (browser w') = Datatypes.S (Datatypes.S n) /\
      Home.status (page w') = Home.MSG_STORED)).
Proof.
  unfold Home.storeImage, Home.append, Home.readAll, Home.uploadImageToPinata.
  run_effect. simpl.
  repeat (split_match; simpl);
    (split; [reflexivity|]); (split; [reflexivity|]);
    first
      [ left; split; [reflexivity|]; split; [lia|]; discriminate
      | right; eexists _, _; repeat split; reflexivity ].
Qed.
End HomeFacts.

Section SessionFacts.
Context {codec : JSON} {laws : JSONLaws}.

Lemma readAll_stringified (w : World Home.State) (l : list StoredImage) :
  stored_text w = Some (JSON_stringify l) -> Home.readAll w = (Return l, w).
Proof.
  intros Htext. apply (readAll_parsed w (JSON_stringify l)); [exact Htext | |].
  - apply stringify_truthy.
  - apply parse_stringify.
Qed.


Lemma handle_clock (ev : Home.Event) (w : World Home.State) :
  clock (browser (exec (Home.handle ev) w)) = clock (browser w).
Proof.
  destruct ev; [reflexivity | reflexivity |].
  apply (storeImage_cases w).
Qed.


End SessionFacts.


(** ** The upload adapter *)

(** C3.  When the pinning credential is not configured (absent or empty),
    the upload fails with the configuration-error message and no request is
    issued: the log of fetches is as it was. *)
Theorem C3_upload_without_credential_fails_before_fetch
    (file : File) (w : World Home.State) :
  JS.truthy_opt (env_PINATA_JWT (browser w)) = false ->
  completion (Home.uploadImageToPinata file) w
  = Throw (Error
      "Pinata JWT not configured. Add NEXT_PUBLIC_PINATA_JWT to .env.local") /\
  fetch_log (browser (exec (Home.uploadImageToPinata file) w))
  = fetch_log (browser w).
Proof.
  intros Hjwt. unfold completion, exec.
  rewrite (upload_not_configured file w Hjwt). split; reflexivity.
Qed.

Lemma C3_witness :
  completion (Home.uploadImageToPinata Example.photo)
    (Example.home (Example.tab None ∅ Example.ticking))
  = Throw (Error
      "Pinata JWT not configured. Add NEXT_PUBLIC_PINATA_JWT to .env.local") /\
  fetch_log (browser (exec (Home.uploadImageToPinata Example.photo)
                        (Example.home (Example.tab None ∅ Example.ticking))))
  = [].
Proof.
  apply (C3_upload_without_credential_fails_before_fetch Example.photo
           (Example.home (Example.tab None ∅ Example.ticking))).
  reflexivity.
Defined.

(** C9.  With a configured credential, when the response is OK and carries
    a content hash, the upload returns "ipfs://" followed by that hash. *)
Theorem C9_upload_returns_ipfs_reference
    (file : File) (w : World Home.State) (jwt hash : string)
    (response : Response) (data : PinataBody) :
  env_PINATA_JWT (browser w) = Some jwt ->
  JS.truthy jwt = true ->
  network (browser w) (length (fetch_log (browser w)))
    (Home.pinFileRequest jwt file) = FetchResolves response ->
  ok response = true ->
  json response = BodyResolves data ->
  IpfsHash data = Some hash ->
  JS.truthy hash = true ->
  completion (Home.uploadImageToPinata file) w = Return ("ipfs://" +:+ hash) /\
  JS.startsWith ("ipfs://" +:+ hash) "ipfs://" = true.
Proof.
  intros Henv Hjwt Hnet Hok Hjson Hhash Htruthy. unfold completion.
  rewrite (upload_success file w jwt hash response data) by assumption.
  split; reflexivity.
Qed.

Lemma C9_witness :
  completion (Home.uploadImageToPinata Example.photo)
    (Example.home (Example.tab (Some "jwt") ∅ Example.ticking))
  = Return "ipfs://QmHash" /\
  JS.startsWith "ipfs://QmHash" "ipfs://" = true.
Proof.
  apply (C9_upload_returns_ipfs_reference Example.photo
           (Example.home (Example.tab (Some "jwt") ∅ Example.ticking))
           "jwt" "QmHash"
           {| ok := true; status := 200;
              json := BodyResolves {| IpfsHash := Some "QmHash";
                                      error_details := None |} |}
           {| IpfsHash := Some "QmHash"; error_details := None |});
    reflexivity.
Defined.

(** ** The store *)

Section StoreClaims.
Context {codec : JSON}.

End StoreClaims.


Lemma fold_left_cons_run {A B} (f : A -> B -> A) (x : B) (l : list B) (a : A) :
  fold_left f (x :: l) a = fold_left f l (f a x).
Proof. reflexivity. Qed.

Section SessionClaims.
Context {codec : JSON} {laws : JSONLaws}.

Lemma stored_text_store_item {P} (w : World P) (value : string) :
  stored_text (with_browser (store_item STORED_IMAGES value) w) = Some value.
Proof. unfold stored_text. simpl. apply lookup_insert_eq. Qed.

Lemma after_appends_stored (records l : list StoredImage)
    (w : World Home.State) :
  stored_text w = Some (JSON_stringify l) ->
  stored_text (Home.after_appends records w)
  = Some (JSON_stringify (rev records ++ l)).
Proof.
  revert w l. induction records as [|r records IH]; intros w l Htext.
  - exact Htext.
  - unfold Home.after_appends. rewrite fold_left_cons_run.
    fold (Home.after_appends records (exec (Home.append r) w)).
    unfold exec at 1.
    rewrite (append_after_read r l w) by now apply readAll_stringified.
    cbn [snd]. rewrite (IH _ (r :: l)) by apply stored_text_store_item.
    simpl. now rewrite <- app_assoc.
Qed.

Lemma after_appends_from_empty (records : list StoredImage)
    (w : World Home.State) :
  stored_text w = None ->
  Home.readAll (Home.after_appends records w)
  = (Return (rev records), Home.after_appends records w).
Proof.
  intros Hnone. destruct records as [|r records].
  - now apply readAll_absent.
  - apply readAll_stringified.
    unfold Home.after_appends. rewrite fold_left_cons_run.
    fold (Home.after_appends records (exec (Home.append r) w)).
    unfold exec at 1.
    rewrite (append_after_read r [] w) by now apply readAll_absent.
    cbn [snd]. rewrite (after_appends_stored records [r])
      by apply stored_text_store_item.
    reflexivity.
Qed.

(** The gallery load in a freshly mounted page. *)
Lemma loadImages_mount (b : Browser) (l : list StoredImage) :
  Home.readAll {| page := Home.initial; browser := b |}
  = (Return l, {| page := Home.initial; browser := b |}) ->
  Feed.loadImages (Feed.mount b)
  = (Return tt,
     with_page (Feed.with_loading false)
       (with_page
          (Feed.with_images
             (match l with
              | [] => []
              | _ => JS.Array_sort (fun a b => timestamp b - timestamp a) l
              end))
          (Feed.mount b))).
Proof.
  unfold Home.readAll, Feed.loadImages. run_effect. simpl.
  destruct (sessionStorage b !! STORED_IMAGES) as [text|]; simpl.
  - destruct (JS.truthy text); simpl.
    + destruct (JSON_parse text) as [e|l']; simpl; [discriminate|].
      intros [= ->]. now destruct l.
    + now intros [= <-].
  - now intros [= <-].
Qed.

(** C1.  Starting from a session store without the list, appending N
    records one after the other (each append puts its record in front of the
    list it reads and writes the whole list back) leaves the N records in
    the store, latest append first; the gallery load that follows shows a
    list of length N, newest first by timestamp, made of these records. *)
Theorem C1_appends_then_load_newest_first
    (records : list StoredImage) (w : World Home.State) :
  stored_text w = None ->
  let w' := Home.after_appends records w in
  let loaded := exec Feed.loadImages (Feed.mount (browser w')) in
  (forall r l (v : World Home.State),
      Home.readAll v = (Return l, v) ->
      Home.append r v
      = (Return tt,
         with_browser
           (store_item STORED_IMAGES (JSON_stringify (r :: l))) v)) /\
  Home.readAll w' = (Return (rev records), w') /\
  completion Feed.loadImages (Feed.mount (browser w')) = Return tt /\
  length (Feed.images (page loaded)) = length records /\
  newest_first (Feed.images (page loaded)) /\
  Permutation (Feed.images (page loaded)) records.
Proof.
  intros Hnone w' loaded.
  pose proof (after_appends_from_empty records w Hnone) as Hread.
  fold w' in Hread.
  assert (Hsame : forall (p q : Home.State) (b : Browser) l,
             Home.readAll {| page := p; browser := b |}
             = (Return l, {| page := p; browser := b |}) ->
             Home.readAll {| page := q; browser := b |}
             = (Return l, {| page := q; browser := b |})).
  { intros p q b l. unfold Home.readAll. run_effect. simpl.
    destruct (sessionStorage b !! STORED_IMAGES) as [text|]; simpl.
    - destruct (JS.truthy text); simpl.
      + destruct (JSON_parse text); simpl; [discriminate|]. now intros [= ->].
      + now intros [= <-].
    - now intros [= <-]. }
  assert (Hload := loadImages_mount (browser w') (rev records)
                     (Hsame (page w') Home.initial (browser w') (rev records)
                        ltac:(destruct w'; exact Hread))).
  split; [intros r l v; apply append_after_read|].
  split; [exact Hread|].
  unfold loaded, completion, exec. rewrite Hload. simpl.
  split; [reflexivity|].
  destruct (rev records) as [|r0 l0] eqn:Hrev.
  - apply (f_equal (@rev _)) in Hrev. rewrite rev_involutive in Hrev.
    subst records. simpl. repeat split; [|constructor].
    intros i a b Ha. discriminate.
  - rewrite <- Hrev. split; [|split].
    + now rewrite Array_sort_length, length_rev.
    + apply sort_by_timestamp_newest_first.
    + rewrite Array_sort_Permutation. symmetry. apply Permutation_rev.
Qed.
End SessionClaims.

Lemma C1_witness :
  let w := Example.home (Example.tab (Some "jwt") ∅ Example.ticking) in
  let records := [Example.dog; Example.cat; Example.dog] in
  let w' := Home.after_appends (codec := CanonicalJSON.json) records w in
  let loaded :=
    exec (Feed.loadImages (codec := CanonicalJSON.json)) (Feed.mount (browser w')) in
  (forall r l (v : World Home.State),
      Home.readAll (codec := CanonicalJSON.json) v = (Return l, v) ->
      Home.append (codec := CanonicalJSON.json) r v
      = (Return tt,
         with_browser
           (store_item STORED_IMAGES (CanonicalJSON.stringify (r :: l))) v)) /\
  Home.readAll (codec := CanonicalJSON.json) w'
  = (Return [Example.dog; Example.cat; Example.dog], w') /\
  completion (Feed.loadImages (codec := CanonicalJSON.json))
    (Feed.mount (browser w')) = Return tt /\
  length (Feed.images (page loaded)) = 3%nat /\
  newest_first (Feed.images (page loaded)) /\
  Permutation (Feed.images (page loaded)) records.
Proof.
  apply (C1_appends_then_load_newest_first (codec := CanonicalJSON.json)
           (laws := CanonicalJSON_laws)
           [Example.dog; Example.cat; Example.dog]
           (Example.home (Example.tab (Some "jwt") ∅ Example.ticking))).
  reflexivity.
Defined.

Section SessionClaims2.
Context {codec : JSON} {laws : JSONLaws}.

(** C6 (as amended).  The record written by a successful store has for id
    the decimal text of one clock reading and for timestamp the next clock
    reading; the id is the text of the record's own timestamp when these two
    readings agree. *)
Theorem C6_id_and_timestamp_are_successive_clock_readings
    (w : World Home.State) :
  Home.status (page (exec Home.storeImage w)) = Home.MSG_STORED ->
  let n := clock_reads (browser w) in
  exists r l,
    Home.readAll (exec Home.storeImage w)
    = (Return (r :: l), exec Home.storeImage w) /\
    id r = JS.Number_toString (clock (browser w) n) /\
    timestamp r = clock (browser w) (Datatypes.S n) /\
    (clock (browser w) n = clock (browser w) (Datatypes.S n) ->
     id r = JS.Number_toString (timestamp r)).
Proof.
  intros Hstatus n.
  destruct (storeImage_cases w) as (_ & _ & [Hsame | Hstored]).
  - destruct Hsame as (_ & _ & Hne). contradiction.
  - destruct Hstored as (hash & l & _ & Hstore & _ & _).
    eexists _, l. split; [|split; [|split]].
    + apply readAll_stringified. unfold stored_text.
      rewrite Hstore. apply lookup_insert_eq.
    + reflexivity.
    + reflexivity.
    + subst n. simpl. intros Heq. now rewrite Heq.
Qed.


(** C8 (as amended).  When the stored text is malformed JSON, the gallery
    load catches the parse error and shows no record; the read made by an
    append throws instead, and the store operation around it catches the
    error: it completes, reports "Storage failed: " with the error's
    message, and leaves the session storage as it was (the new record is
    not written). *)
Theorem C8_malformed_text_empties_gallery_and_fails_store
    (text : string) (e : Exn) (b : Browser)
    (w : World Home.State) (r : StoredImage) :
  JS.truthy text = true ->
  JSON_parse text = inl e ->
  sessionStorage b !! STORED_IMAGES = Some text ->
  stored_text w = Some text ->
  Feed.loadImages (Feed.mount b)
  = (Return tt, with_page (Feed.with_loading false) (Feed.mount b)) /\
  Feed.images (page (exec Feed.loadImages (Feed.mount b))) = [] /\
  Home.append r w = (Throw e, w) /\
  completion Home.storeImage w = Return tt /\
  sessionStorage (browser (exec Home.storeImage w))
  = sessionStorage (browser w) /\
  Home.status (page (exec Home.storeImage w)) <> Home.MSG_STORED /\
  (forall (file : File) (url : string),
      Home.imageFile (page w) = Some file ->
      JS.truthy (JS.trim (Home.description (page w))) = true ->
      completion (Home.uploadImageToPinata file) w = Return url ->
      Home.status (page (exec Home.storeImage w))
      = "Storage failed: " +:+ JS.or_else (message e) "Unknown error").
Proof.
  intros Htruthy Hparse Hb Htext.
  assert (Hload : Feed.loadImages (Feed.mount b)
             = (Return tt, with_page (Feed.with_loading false) (Feed.mount b))).
  { unfold Feed.loadImages. run_effect. simpl.
    now rewrite Hb, Htruthy, Hparse. }
  split; [exact Hload|]. split; [|split; [|split; [|split; [|split]]]].
  - unfold exec. now rewrite Hload.
  - apply append_read_throws, (readAll_throws w text e); assumption.
  - apply (storeImage_cases w).
  - destruct (storeImage_cases w) as (_ & _ & [Hsame | Hstored]).
    + apply Hsame.
    + destruct Hstored as (hash & l & Hread & _).
      unfold completion in Hread.
      rewrite (readAll_throws w text e) in Hread by assumption.
      discriminate.
  - destruct (storeImage_cases w) as (_ & _ & [Hsame | Hstored]).
    + apply Hsame.
    + destruct Hstored as (hash & l & Hread & _).
      unfold completion in Hread.
      rewrite (readAll_throws w text e) in Hread by assumption.
      discriminate.
  - intros file url Hfile Hdesc Hup.
    unfold stored_text in Htext.
    unfold completion in Hup. unfold exec.
    unfold Home.storeImage, Home.append, Home.readAll,
      Home.uploadImageToPinata in *.
    revert Hup. run_effect. simpl.
    rewrite Hfile, Hdesc. simpl.
    repeat (split_match; simpl); intros Hup; try discriminate;
      simplify_eq; try congruence; reflexivity.
Qed.
End SessionClaims2.

Lemma C6_witness :
  let w := Home.run (codec := CanonicalJSON.json)
             [Home.SelectFile (Some Example.photo); Home.TypeDescription "cat"]
             (Example.home (Example.tab (Some "jwt") ∅ Example.frozen)) in
  exists r l,
    Home.readAll (codec := CanonicalJSON.json)
      (exec (Home.storeImage (codec := CanonicalJSON.json)) w)
    = (Return (r :: l), exec (Home.storeImage (codec := CanonicalJSON.json)) w) /\
    id r = JS.Number_toString (Example.frozen 0) /\
    timestamp r = Example.frozen 1 /\
    (Example.frozen 0 = Example.frozen 1 ->
     id r = JS.Number_toString (timestamp r)).
Proof.
  apply (C6_id_and_timestamp_are_successive_clock_readings
           (codec := CanonicalJSON.json) (laws := CanonicalJSON_laws)).
  reflexivity.
Defined.

(** With a clock that advances between the two readings, the id is not the
    text of the record's timestamp. *)
Lemma C6_counterexample :
  let w := Home.run (codec := CanonicalJSON.json) (Example.store_photo "cat")
             (Example.home (Example.tab (Some "jwt") ∅ Example.ticking)) in
  Home.status (page w) = Home.MSG_STORED /\
  exists r,
    completion (Home.readAll (codec := CanonicalJSON.json)) w = Return [r] /\
    id r = "1700000000000" /\
    JS.Number_toString (timestamp r) = "1700000000001" /\
    id r <> JS.Number_toString (timestamp r).
Proof.
  split; [reflexivity|].
  eexists. split; [vm_compute; reflexivity|].
  split; [reflexivity|]. split; [reflexivity|]. discriminate.
Qed.



Lemma C8_witness :
  let text := "{oops" in
  let b := Example.tab (Some "jwt") {[ STORED_IMAGES := text ]} Example.ticking in
  let w := Home.run (codec := CanonicalJSON.json)
             [Home.SelectFile (Some Example.photo); Home.TypeDescription "cat"]
             (Example.home b) in
  Feed.loadImages (codec := CanonicalJSON.json) (Feed.mount b)
  = (Return tt, with_page (Feed.with_loading false) (Feed.mount b)) /\
  Feed.images (page (exec (Feed.loadImages (codec := CanonicalJSON.json))
                       (Feed.mount b))) = [] /\
  Home.append (codec := CanonicalJSON.json) Example.cat w
  = (Throw CanonicalJSON.SyntaxError, w) /\
  completion (Home.storeImage (codec := CanonicalJSON.json)) w = Return tt /\
  sessionStorage (browser (exec (Home.storeImage (codec := CanonicalJSON.json)) w))
  = sessionStorage (browser w) /\
  Home.status (page (exec (Home.storeImage (codec := CanonicalJSON.json)) w))
  <> Home.MSG_STORED /\
  (forall (file : File) (url : string),
      Home.imageFile (page w) = Some file ->
      JS.truthy (JS.trim (Home.description (page w))) = true ->
      completion (Home.uploadImageToPinata file) w = Return url ->
      Home.status (page (exec (Home.storeImage (codec := CanonicalJSON.json)) w))
      = "Storage failed: "
        +:+ JS.or_else (message CanonicalJSON.SyntaxError) "Unknown error").
Proof.
  apply (C8_malformed_text_empties_gallery_and_fails_store
           (codec := CanonicalJSON.json) "{oops"); reflexivity.
Defined.

(** The read made by an append on a malformed text does not yield the
    empty list, it throws; and the store around it does not behave as on an
    empty store: the text stays and the record is not written. *)
Lemma C8_counterexample :
  let evs := Example.store_photo "cat" in
  let bad :=
    Example.home
      (Example.tab (Some "jwt") {[ STORED_IMAGES := "{oops" ]}
         Example.ticking) in
  let malformed := Home.run (codec := CanonicalJSON.json) evs bad in
  let empty :=
    Home.run (codec := CanonicalJSON.json) evs
      (Example.home (Example.tab (Some "jwt") ∅ Example.ticking)) in
  CanonicalJSON.parse "{oops" = inl CanonicalJSON.SyntaxError /\
  completion (Home.readAll (codec := CanonicalJSON.json)) bad
  = Throw CanonicalJSON.SyntaxError /\
  completion (Home.readAll (codec := CanonicalJSON.json)) bad <> Return [] /\
  stored_text empty
  = Some (CanonicalJSON.stringify
            [ {| id := "1700000000000"; image := "ipfs://QmHash";
                 description := "cat"; timestamp := 1700000000001 |} ]) /\
  stored_text malformed = Some "{oops" /\
  Home.status (page malformed) = "Storage failed: Unexpected token in JSON" /\
  stored_text malformed <> stored_text empty.
Proof.
  split; [reflexivity|]. split; [reflexivity|]. split; [discriminate|].
  split; [vm_compute; reflexivity|].
  split; [vm_compute; reflexivity|]. split; [vm_compute; reflexivity|].
  vm_compute. discriminate.
Qed.

(** ** The wallet bridge *)

Section MintClaims.
Context {viem : Viem}.

(** C4.  A mint attempted before a wallet connection has completed (no
    provider handle, or no recorded sub-account address) only records
    "Please connect wallet first" as the status of the record: no provider
    request and no fetch is issued. *)
Theorem C4_mint_before_connect_asks_to_connect
    (img : StoredImage) (w : World Feed.State) :
  Feed.provider (page w) = None \/
  JS.truthy_opt (Feed.subAccountAddress (page w)) = false ->
  Feed.mintNFT img w
  = (Return tt,
     with_page
       (Feed.update_mintStatus
          (fun prev => <[id img := "Please connect wallet first"]> prev)) w) /\
  Feed.mintStatus (page (exec (Feed.mintNFT img) w)) !! id img
  = Some "Please connect wallet first" /\
  rpc_log (browser (exec (Feed.mintNFT img) w)) = rpc_log (browser w) /\
  fetch_log (browser (exec (Feed.mintNFT img) w)) = fetch_log (browser w).
Proof.
  intros Hguard.
  assert (Hrun : Feed.mintNFT img w
                 = (Return tt,
                    with_page
                      (Feed.update_mintStatus
                         (fun prev => <[id img := Feed.MSG_CONNECT_FIRST]> prev))
                      w)).
  { unfold Feed.mintNFT. run_effect. simpl.
    destruct (Feed.provider (page w)) as [p|];
      destruct (Feed.subAccountAddress (page w)) as [sub|];
      try reflexivity.
    destruct Hguard as [Hp | Hsub]; [discriminate|].
    simpl in Hsub. now rewrite Hsub. }
  unfold exec. rewrite Hrun. split; [reflexivity|].
  split; [|split; reflexivity].
  simpl. apply lookup_insert_eq.
Qed.

(** C2.  With a provider and a recorded sub-account address, a mint first
    asks the wallet for its accounts.  Unless the first account listed is
    the sub-account address, nothing else is requested and the mint is
    reported as failed.  Otherwise exactly one wallet_sendCalls request
    follows; its payload has version 2.0, atomicRequired true, the chain id
    of Base Sepolia in hexadecimal, the sub-account address as sender and
    one call: to the NFT contract, with value zero and with the encoding of
    mintNFT applied to the record's content reference as data. *)
Theorem C2_mint_lists_accounts_then_sends_one_call
    (img : StoredImage) (w : World Feed.State)
    (p : Feed.Provider) (sub : string) :
  Feed.provider (page w) = Some p ->
  Feed.subAccountAddress (page w) = Some sub ->
  JS.truthy sub = true ->
  let w' := exec (Feed.mintNFT img) w in
  let listed :=
    on_eth_accounts (wallet (browser w)) (length (rpc_log (browser w))) in
  let list_accounts := {| rpc_method := "eth_accounts"; params := [] |} in
  let send_calls :=
    {| rpc_method := "wallet_sendCalls";
       params :=
         [ {| version := "2.0";
              atomicRequired := true;
              chainId := "0x14a34";
              from := sub;
              calls :=
                [ {| to := "0x54396910e3a670a9C4F75d5314192EA897491C3c";
                     data := encodeFunctionData Feed.NFT_CONTRACT_ABI
                               "mintNFT" [image img];
                     value := "0x0" |} ] |} ] |} in
  completion (Feed.mintNFT img) w = Return tt /\
  fetch_log (browser w') = fetch_log (browser w) /\
  (forall first others,
      listed = inr (Some (first :: others)) -> first = sub ->
      rpc_log (browser w') = rpc_log (browser w) ++ [list_accounts; send_calls]) /\
  ((forall first others,
       listed = inr (Some (first :: others)) -> first <> sub) ->
   rpc_log (browser w') = rpc_log (browser w) ++ [list_accounts] /\
   exists msg,
     Feed.mintStatus (page w') !! id img = Some (CROSS_MARK +:+ " " +:+ msg)).
Proof.
  intros Hp Hsub Htruthy w' listed list_accounts send_calls.
  subst w' listed list_accounts send_calls.
  unfold Feed.mintNFT. run_effect. simpl.
  rewrite Hp, Hsub, Htruthy. simpl.
  assert (Hfail : forall (m : gmap string string) (msg : string),
             exists msg', <[id img := CROSS_MARK +:+ " " +:+ msg]> m !! id img
                          = Some (CROSS_MARK +:+ " " +:+ msg')).
  { intros m msg. exists msg. apply lookup_insert_eq. }
  destruct (on_eth_accounts (wallet (browser w)) (length (rpc_log (browser w))))
    as [e | [[|first others] |]]; simpl.
  - split; [reflexivity|]. split; [reflexivity|]. split; [discriminate|].
    intros _. split; [reflexivity | apply Hfail].
  - split; [reflexivity|]. split; [reflexivity|]. split; [discriminate|].
    intros _. split; [reflexivity | apply Hfail].
  - destruct (String.eqb_spec first sub) as [->|Hne]; simpl.
    + destruct (on_wallet_sendCalls _ _ _) as [e|callsId]; simpl;
        (split; [reflexivity|]); (split; [reflexivity|]);
        (split; [intros ? ? _ _; now rewrite <- app_assoc|]);
        intros Hno; now destruct (Hno sub others).
    + split; [reflexivity|]. split; [reflexivity|]. split.
      * intros ? ? [= -> _] Heq. contradiction.
      * intros _. split; [reflexivity | apply Hfail].
  - split; [reflexivity|]. split; [reflexivity|]. split; [discriminate|].
    intros _. split; [reflexivity | apply Hfail].
Qed.
End MintClaims.

Lemma C4_witness :
  let w := Feed.mount (Example.tab (Some "jwt") ∅ Example.ticking) in
  Feed.mintNFT (viem := symbolic_encoder) Example.cat w
  = (Return tt,
     with_page
       (Feed.update_mintStatus
          (fun prev => <[id Example.cat := "Please connect wallet first"]> prev))
       w) /\
  Feed.mintStatus
    (page (exec (Feed.mintNFT (viem := symbolic_encoder) Example.cat) w))
    !! id Example.cat
  = Some "Please connect wallet first" /\
  rpc_log (browser (exec (Feed.mintNFT (viem := symbolic_encoder) Example.cat) w))
  = [] /\
  fetch_log (browser (exec (Feed.mintNFT (viem := symbolic_encoder) Example.cat) w))
  = [].
Proof.
  apply (C4_mint_before_connect_asks_to_connect (viem := symbolic_encoder)
           Example.cat
           (Feed.mount (Example.tab (Some "jwt") ∅ Example.ticking))).
  left. reflexivity.
Defined.

Lemma C2_witness :
  let w := Example.connected_feed (Example.tab (Some "jwt") ∅ Example.ticking) in
  let w' := exec (Feed.mintNFT (viem := symbolic_encoder) Example.cat) w in
  let list_accounts := {| rpc_method := "eth_accounts"; params := [] |} in
  let send_calls :=
    {| rpc_method := "wallet_sendCalls";
       params :=
         [ {| version := "2.0";
              atomicRequired := true;
              chainId := "0x14a34";
              from := "0xSub";
              calls :=
                [ {| to := "0x54396910e3a670a9C4F75d5314192EA897491C3c";
                     data := "0xmintNFT(ipfs://QmHash)";
                     value := "0x0" |} ] |} ] |} in
  completion (Feed.mintNFT (viem := symbolic_encoder) Example.cat) w = Return tt /\
  fetch_log (browser w') = [] /\
  (forall first others,
      @inr Exn _ (Some ["0xSub"; "0xUniversal"]) = inr (Some (first :: others)) ->
      first = "0xSub" ->
      rpc_log (browser w') = [] ++ [list_accounts; send_calls]) /\
  ((forall first others,
       @inr Exn _ (Some ["0xSub"; "0xUniversal"]) = inr (Some (first :: others)) ->
       first <> "0xSub") ->
   rpc_log (browser w') = [] ++ [list_accounts] /\
   exists msg,
     Feed.mintStatus (page w') !! id Example.cat
     = Some (CROSS_MARK +:+ " " +:+ msg)).
Proof.
  apply (C2_mint_lists_accounts_then_sends_one_call (viem := symbolic_encoder)
           Example.cat
           (Example.connected_feed
              (Example.tab (Some "jwt") ∅ Example.ticking))
           Feed.BaseAccountProvider "0xSub"); reflexivity.
Defined.


(** * Further properties of the pages *)

(** ** The upload adapter, whatever the service answers *)

Lemma or_else_truthy (x : option string) (d : string) :
  JS.truthy d = true -> JS.truthy (JS.or_else x d) = true.
Proof.
  intros Hd. unfold JS.or_else. destruct x as [s|]; [|exact Hd].
  destruct (JS.truthy s) eqn:Hs; assumption.
Qed.

(** X1.  With a configured credential an upload issues exactly one request,
    whatever comes back: a POST to the pinning endpoint with the credential
    as bearer token and the file as the form field "file".  Nothing else
    changes, and [uploadingImage] is false afterwards. *)
Theorem upload_issues_one_request
    (file : File) (w : World Home.State) (jwt : string) :
  env_PINATA_JWT (browser w) = Some jwt ->
  JS.truthy jwt = true ->
  exec (Home.uploadImageToPinata file) w
  = with_browser
      (push_fetch
         {| url := "https://api.pinata.cloud/pinning/pinFileToIPFS";
            method := "POST";
            headers := [("Authorization", "Bearer " +:+ jwt)];
            body := [("file", file)] |})
      (with_page (Home.with_uploadingImage false) w).
Proof.
  intros Henv Hjwt. unfold Home.uploadImageToPinata. run_effect. simpl.
  rewrite Henv. simpl. rewrite Hjwt. simpl.
  repeat (split_match; simpl); reflexivity.
Qed.

Lemma upload_issues_one_request_witness :
  exec (Home.uploadImageToPinata Example.photo)
    (Example.home (Example.tab (Some "jwt") ∅ Example.ticking))
  = with_browser
      (push_fetch
         {| url := "https://api.pinata.cloud/pinning/pinFileToIPFS";
            method := "POST";
            headers := [("Authorization", "Bearer " +:+ "jwt")];
            body := [("file", Example.photo)] |})
      (with_page (Home.with_uploadingImage false)
         (Example.home (Example.tab (Some "jwt") ∅ Example.ticking))).
Proof.
  apply (upload_issues_one_request Example.photo
           (Example.home (Example.tab (Some "jwt") ∅ Example.ticking)) "jwt");
    reflexivity.
Defined.

(** X2.  A response that is not OK makes the upload fail with the HTTP status
    and the details of the error body, or "Unknown error" when the body has
    no details. *)
Theorem upload_reports_http_status
    (file : File) (w : World Home.State) (jwt : string)
    (response : Response) (errorData : PinataBody) :
  env_PINATA_JWT (browser w) = Some jwt ->
  JS.truthy jwt = true ->
  network (browser w) (length (fetch_log (browser w)))
    (Home.pinFileRequest jwt file) = FetchResolves response ->
  ok response = false ->
  json response = BodyResolves errorData ->
  completion (Home.uploadImageToPinata file) w
  = Throw (Error ("Pinata upload failed ("
                    +:+ JS.Number_toString (Http.status response) +:+ "): "
                    +:+ match error_details errorData with
                        | Some (String c details) => String c details
                        | _ => "Unknown error"
                        end)).
Proof.
  intros Henv Hjwt Hnet Hok Hjson.
  unfold Home.uploadImageToPinata. run_effect. simpl.
  rewrite Henv. simpl. rewrite Hjwt. simpl. rewrite Hnet, Hok. simpl.
  rewrite Hjson. simpl.
  destruct (error_details errorData) as [[|c details]|]; reflexivity.
Qed.

Lemma upload_reports_http_status_witness :
  completion (Home.uploadImageToPinata Example.photo)
    (Example.home
       (Example.with_network Example.refusing
          (Example.tab (Some "jwt") ∅ Example.ticking)))
  = Throw (Error "Pinata upload failed (401): Invalid token").
Proof.
  apply (upload_reports_http_status Example.photo
           (Example.home
              (Example.with_network Example.refusing
                 (Example.tab (Some "jwt") ∅ Example.ticking)))
           "jwt"
           {| ok := false; status := 401;
              json := BodyResolves {| IpfsHash := None;
                                      error_details := Some "Invalid token" |} |}
           {| IpfsHash := None; error_details := Some "Invalid token" |});
    reflexivity.
Defined.



(** X4.  When the request is rejected by the network, or the body of the
    response is not JSON (whether the response is OK or not), the upload
    fails with the message of that error, or with "Image upload failed" when
    the error has no message: the HTTP status is not reported then. *)
Theorem upload_passes_on_the_error_message
    (file : File) (w : World Home.State) (jwt : string) (e : Exn) :
  env_PINATA_JWT (browser w) = Some jwt ->
  JS.truthy jwt = true ->
  network (browser w) (length (fetch_log (browser w)))
    (Home.pinFileRequest jwt file) = FetchRejects e \/
  (exists response,
      network (browser w) (length (fetch_log (browser w)))
        (Home.pinFileRequest jwt file) = FetchResolves response /\
      json response = BodyRejects e) ->
  completion (Home.uploadImageToPinata file) w
  = Throw (Error match message e with
                 | Some (String c msg) => String c msg
                 | _ => "Image upload failed"
                 end).
Proof.
  intros Henv Hjwt Hnet.
  unfold Home.uploadImageToPinata. run_effect. simpl.
  rewrite Henv. simpl. rewrite Hjwt. simpl.
  destruct Hnet as [Hnet | (response & Hnet & Hjson)]; rewrite Hnet; simpl.
  - now destruct (message e) as [[|c msg]|].
  - destruct (ok response); simpl; rewrite Hjson; simpl;
      now destruct (message e) as [[|c msg]|].
Qed.

Lemma upload_passes_on_the_error_message_witness :
  completion (Home.uploadImageToPinata Example.photo)
    (Example.home
       (Example.with_network Example.offline
          (Example.tab (Some "jwt") ∅ Example.ticking)))
  = Throw (Error "Failed to fetch").
Proof.
  apply (upload_passes_on_the_error_message Example.photo
           (Example.home
              (Example.with_network Example.offline
                 (Example.tab (Some "jwt") ∅ Example.ticking)))
           "jwt" (Error "Failed to fetch"));
    first [reflexivity | left; reflexivity].
Defined.

(** X5.  Every failure of the upload is an error with a non-empty message. *)
Theorem upload_failure_has_a_message
    (file : File) (w : World Home.State) (e : Exn) :
  completion (Home.uploadImageToPinata file) w = Throw e ->
  exists msg, e = Error msg /\ JS.truthy msg = true.
Proof.
  unfold Home.uploadImageToPinata. run_effect. simpl.
  repeat (split_match; simpl); intros [= <-]; eexists;
    (split; [reflexivity|]);
    first [reflexivity | now apply or_else_truthy | idtac].
  all: simpl; try reflexivity.
Qed.

Lemma upload_failure_has_a_message_witness :
  exists msg, Error "Failed to fetch" = Error msg /\ JS.truthy msg = true.
Proof.
  apply (upload_failure_has_a_message Example.photo
           (Example.home
              (Example.with_network Example.offline
                 (Example.tab (Some "jwt") ∅ Example.ticking)))
           (Error "Failed to fetch")).
  reflexivity.
Defined.

(** ** The store operation *)

Section StoreFacts.
Context {codec : JSON}.

(** X6.  When the upload fails, the store operation reports "Storage failed: "
    with the message of the failure and stops there: the form keeps the file
    and the description, the busy flags are down, the clock is not read,
    nothing is written to the session storage and no navigation is
    scheduled. *)
Theorem store_reports_upload_failure
    (w : World Home.State) (file : File) (e : Exn) :
  Home.imageFile (page w) = Some file ->
  JS.truthy (JS.trim (Home.description (page w))) = true ->
  completion (Home.uploadImageToPinata file) w = Throw e ->
  let w' := exec Home.storeImage w in
  Home.status (page w')
  = "Storage failed: " +:+ JS.or_else (message e) "Unknown error" /\
  Home.imageFile (page w') = Some file /\
  Home.description (page w') = Home.description (page w) /\
  Home.loading (page w') = false /\
  Home.uploadingImage (page w') = false /\
  sessionStorage (browser w') = sessionStorage (browser w) /\
  clock_reads (browser w') = clock_reads (browser w) /\
  timers (browser w') = timers (browser w).
Proof.
  intros Hfile Hdesc Hup. unfold completion in Hup. unfold exec.
  unfold Home.storeImage, Home.append, Home.readAll,
    Home.uploadImageToPinata in *.
  revert Hup. run_effect. simpl. rewrite Hfile, Hdesc. simpl.
  repeat (split_match; simpl); intros Hup; try discriminate;
    injection Hup as <-; repeat split;
    first [assumption | reflexivity
          | match goal with
            | Hno : JS.truthy (JS.or_else _ _) = false |- _ =>
                rewrite or_else_truthy in Hno by reflexivity; discriminate
            end
          | cbn [message Error JS.or_else];
            now rewrite or_else_truthy by reflexivity ].
Qed.

(** X7.  A successful store puts in front of the list that was read the record
    made of the upload's reference, the description as typed (not trimmed)
    and the two clock readings; it then empties the form, lowers the busy
    flags and schedules the move to the gallery two seconds later. *)
Theorem store_success_writes_record_and_resets_form
    (w : World Home.State) (file : File) (imageIpfsUrl : string)
    (l : list StoredImage) :
  Home.imageFile (page w) = Some file ->
  JS.truthy (JS.trim (Home.description (page w))) = true ->
  completion (Home.uploadImageToPinata file) w = Return imageIpfsUrl ->
  completion Home.readAll w = Return l ->
  let w' := exec Home.storeImage w in
  let n := clock_reads (browser w) in
  stored_text w'
  = Some (JSON_stringify
            ({| id := JS.Number_toString (clock (browser w) n);
                image := imageIpfsUrl;
                description := Home.description (page w);
                timestamp := clock (browser w) (Datatypes.S n) |} :: l)) /\
  page w'
  = {| Home.description := ""; Home.imageFile := None;
       Home.loading := false;
       Home.status := CHECK_MARK +:+ " Image stored permanently on IPFS!";
       Home.uploadingImage := false |} /\
  timers (browser w') = timers (browser w) ++ [(RouterPush "/feed", 2000)] /\
  clock_reads (browser w') = Datatypes.S (Datatypes.S n).
Proof.
  intros Hfile Hdesc Hup Hread w' n. subst w' n.
  unfold completion in Hup, Hread. unfold exec, stored_text.
  unfold Home.storeImage, Home.append, Home.readAll,
    Home.uploadImageToPinata in *.
  revert Hup Hread. run_effect. simpl. rewrite Hfile, Hdesc. simpl.
  repeat (split_match; simpl); intros Hup Hread; try discriminate;
    injection Hup as <-; injection Hread as <-;
    (split; [apply lookup_insert_eq|]); repeat split.
Qed.

(** X8.  The busy flags do not stay up: when neither [loading] nor
    [uploadingImage] is set before the button is pressed, neither is set
    once the handler is done, however the upload and the store end. *)
Theorem store_lowers_busy_flags (w : World Home.State) :
  Home.loading (page w) = false ->
  Home.uploadingImage (page w) = false ->
  completion Home.storeImage w = Return tt /\
  Home.loading (page (exec Home.storeImage w)) = false /\
  Home.uploadingImage (page (exec Home.storeImage w)) = false.
Proof.
  intros Hloading Huploading.
  unfold Home.storeImage, Home.append, Home.readAll, Home.uploadImageToPinata.
  run_effect. simpl.
  repeat (split_match; simpl); repeat split; first [assumption | reflexivity].
Qed.
End StoreFacts.

Lemma store_reports_upload_failure_witness :
  let w := Example.filled
             (Example.with_network Example.offline
                (Example.tab (Some "jwt") ∅ Example.ticking)) in
  let w' := exec (Home.storeImage (codec := CanonicalJSON.json)) w in
  Home.status (page w')
  = "Storage failed: "
    +:+ JS.or_else (message (Error "Failed to fetch")) "Unknown error" /\
  Home.imageFile (page w') = Some Example.photo /\
  Home.description (page w') = Home.description (page w) /\
  Home.loading (page w') = false /\
  Home.uploadingImage (page w') = false /\
  sessionStorage (browser w') = sessionStorage (browser w) /\
  clock_reads (browser w') = clock_reads (browser w) /\
  timers (browser w') = timers (browser w).
Proof.
  apply (store_reports_upload_failure (codec := CanonicalJSON.json)
           (Example.filled
              (Example.with_network Example.offline
                 (Example.tab (Some "jwt") ∅ Example.ticking)))
           Example.photo (Error "Failed to fetch")); reflexivity.
Defined.

Lemma store_success_writes_record_and_resets_form_witness :
  let w := Example.filled (Example.tab (Some "jwt") ∅ Example.ticking) in
  let w' := exec (Home.storeImage (codec := CanonicalJSON.json)) w in
  stored_text w'
  = Some (CanonicalJSON.stringify
            [ {| id := JS.Number_toString (Example.ticking 0);
                 image := "ipfs://QmHash";
                 description := "A cat";
                 timestamp := Example.ticking 1 |} ]) /\
  page w'
  = {| Home.description := ""; Home.imageFile := None;
       Home.loading := false;
       Home.status := CHECK_MARK +:+ " Image stored permanently on IPFS!";
       Home.uploadingImage := false |} /\
  timers (browser w') = [] ++ [(RouterPush "/feed", 2000)] /\
  clock_reads (browser w') = 2%nat.
Proof.
  apply (store_success_writes_record_and_resets_form
           (codec := CanonicalJSON.json)
           (Example.filled (Example.tab (Some "jwt") ∅ Example.ticking))
           Example.photo "ipfs://QmHash" []); reflexivity.
Defined.

Lemma store_lowers_busy_flags_witness :
  let w := Example.filled
             (Example.with_network Example.refusing
                (Example.tab (Some "jwt") ∅ Example.ticking)) in
  completion (Home.storeImage (codec := CanonicalJSON.json)) w = Return tt /\
  Home.loading (page (exec (Home.storeImage (codec := CanonicalJSON.json)) w))
  = false /\
  Home.uploadingImage
    (page (exec (Home.storeImage (codec := CanonicalJSON.json)) w)) = false.
Proof.
  apply (store_lowers_busy_flags (codec := CanonicalJSON.json)
           (Example.filled
              (Example.with_network Example.refusing
                 (Example.tab (Some "jwt") ∅ Example.ticking))));
    reflexivity.
Defined.

(** ** Sessions of the upload page *)

Section SessionOrder.
Context {codec : JSON} {laws : JSONLaws}.

Lemma readAll_of_holds (w : World Home.State) (l : list StoredImage) :
  holds_list w l -> Home.readAll w = (Return l, w).
Proof.
  intros [[Hnone ->] | Hsome].
  - now apply readAll_absent.
  - now apply readAll_stringified.
Qed.

(** One event adds at most one record in front of the list, and only a
    press of the store button can add one. *)
Lemma handle_grows (ev : Home.Event) (w : World Home.State)
    (l : list StoredImage) :
  holds_list w l ->
  exists added,
    holds_list (exec (Home.handle ev) w) (added ++ l) /\
    (length added <= clicks [ev])%nat.
Proof.
  intros Hl. destruct ev as [file|text|].
  - exists []. split; [exact Hl | simpl; lia].
  - exists []. split; [exact Hl | simpl; lia].
  - simpl. destruct (storeImage_cases w) as (_ & _ & [Hsame | Hstored]).
    + destruct Hsame as (Hstore & _ & _).
      exists []. split; [|simpl; lia].
      unfold holds_list, stored_text in *. now rewrite Hstore.
    + destruct Hstored as (hash & l0 & Hread & Hstore & _ & _).
      unfold completion in Hread. rewrite (readAll_of_holds w l Hl) in Hread.
      injection Hread as <-.
      eexists [_]. split; [|simpl; lia].
      right. unfold stored_text. rewrite Hstore. apply lookup_insert_eq.
Qed.

Lemma clicks_app (evs1 evs2 : list Home.Event) :
  clicks (evs1 ++ evs2) = (clicks evs1 + clicks evs2)%nat.
Proof.
  induction evs1 as [|[file|text|] evs1 IH]; simpl; lia.
Qed.

Lemma run_grows (evs : list Home.Event) (w : World Home.State)
    (l : list StoredImage) :
  holds_list w l ->
  exists added,
    holds_list (Home.run evs w) (added ++ l) /\
    (length added <= clicks evs)%nat.
Proof.
  revert w l. induction evs as [|ev evs IH]; intros w l Hl.
  - exists []. split; [exact Hl | simpl; lia].
  - destruct (handle_grows ev w l Hl) as (a1 & H1 & Hn1).
    destruct (IH (exec (Home.handle ev) w) (a1 ++ l) H1) as (a2 & H2 & Hn2).
    exists (a2 ++ a1). rewrite <- app_assoc. split; [exact H2|].
    change (ev :: evs) with ([ev] ++ evs).
    rewrite length_app, clicks_app. lia.
Qed.

Lemma run_app (evs1 evs2 : list Home.Event) (w : World Home.State) :
  Home.run (evs1 ++ evs2) w = Home.run evs2 (Home.run evs1 w).
Proof. unfold Home.run. apply fold_left_app. Qed.

(** X9.  The upload page never removes or rewrites a stored record: in a session
    that starts without a stored list, the list read after more events is
    the list read before with new records in front, at most one per press
    of the store button. *)
Theorem session_list_only_grows
    (before after : list Home.Event) (w : World Home.State) :
  stored_text w = None ->
  exists old added,
    Home.readAll (Home.run before w) = (Return old, Home.run before w) /\
    Home.readAll (Home.run (before ++ after) w)
    = (Return (added ++ old), Home.run (before ++ after) w) /\
    (length added <= clicks after)%nat.
Proof.
  intros Hnone.
  destruct (run_grows before w []) as (old & Hold & _); [now left|].
  rewrite app_nil_r in Hold.
  destruct (run_grows after (Home.run before w) old Hold) as (added & Hadd & Hn).
  exists old, added. rewrite run_app.
  split; [now apply readAll_of_holds|]. split; [now apply readAll_of_holds|].
  exact Hn.
Qed.
End SessionOrder.

Lemma session_list_only_grows_witness :
  let w := Example.home (Example.tab (Some "jwt") ∅ Example.ticking) in
  exists old added,
    Home.readAll (codec := CanonicalJSON.json)
      (Home.run (codec := CanonicalJSON.json) (Example.store_photo "cat") w)
    = (Return old,
       Home.run (codec := CanonicalJSON.json) (Example.store_photo "cat") w) /\
    Home.readAll (codec := CanonicalJSON.json)
      (Home.run (codec := CanonicalJSON.json)
         (Example.store_photo "cat" ++ Example.store_photo "dog") w)
    = (Return (added ++ old),
       Home.run (codec := CanonicalJSON.json)
         (Example.store_photo "cat" ++ Example.store_photo "dog") w) /\
    (length added <= clicks (Example.store_photo "dog"))%nat.
Proof.
  apply (session_list_only_grows (codec := CanonicalJSON.json)
           (laws := CanonicalJSON_laws)
           (Example.store_photo "cat") (Example.store_photo "dog")
           (Example.home (Example.tab (Some "jwt") ∅ Example.ticking))).
  reflexivity.
Defined.

(** ** The order of the gallery *)

Lemma Array_sort_of_sorted {A} (compareFn : A -> A -> Z) (l : list A) :
  Sorted (fun x y => compareFn x y <= 0) l -> JS.Array_sort compareFn l = l.
Proof.
  induction 1 as [|x l Hl IH Hhd]; simpl; [reflexivity|].
  rewrite IH. destruct Hhd as [|y l Hxy]; simpl; [reflexivity|].
  destruct (Z.leb_spec (compareFn x y) 0); [reflexivity | lia].
Qed.

Lemma newest_first_Sorted (l : list StoredImage) :
  newest_first l -> Sorted (fun a b => timestamp b - timestamp a <= 0) l.
Proof.
  induction l as [|x l IH]; intros Hl; constructor.
  - apply IH. intros i a b Ha Hb. exact (Hl (Datatypes.S i) a b Ha Hb).
  - destruct l as [|y l]; constructor.
    specialize (Hl O x y eq_refl eq_refl). lia.
Qed.

Section GalleryOrder.
Context {codec : JSON} {laws : JSONLaws}.

Lemma load_of_sorted_store (b : Browser) (l : list StoredImage) :
  sessionStorage b !! STORED_IMAGES = Some (JSON_stringify l) ->
  Sorted (fun a b => timestamp b - timestamp a <= 0) l ->
  Feed.images (page (exec Feed.loadImages (Feed.mount b))) = l.
Proof.
  intros Htext Hsorted.
  assert (Hread : Home.readAll {| page := Home.initial; browser := b |}
                  = (Return l, {| page := Home.initial; browser := b |})).
  { now apply readAll_stringified. }
  unfold exec. rewrite (loadImages_mount b l Hread). simpl.
  destruct l as [|r l]; [reflexivity|].
  now apply Array_sort_of_sorted.
Qed.

(** X10.  A stored list that is already newest first is shown as it is stored:
    the sort of the gallery load keeps the stored order, also among records
    with the same timestamp. *)
Theorem load_keeps_a_newest_first_store
    (b : Browser) (l : list StoredImage) :
  sessionStorage b !! STORED_IMAGES = Some (JSON_stringify l) ->
  newest_first l ->
  Feed.images (page (exec Feed.loadImages (Feed.mount b))) = l.
Proof.
  intros Htext Hsorted.
  apply load_of_sorted_store; [exact Htext|].
  now apply newest_first_Sorted.
Qed.

Lemma handle_in_order (ev : Home.Event) (w : World Home.State)
    (l : list StoredImage) :
  (forall i j : nat, (i <= j)%nat ->
                     clock (browser w) i <= clock (browser w) j) ->
  session_in_order w l ->
  exists l', session_in_order (exec (Home.handle ev) w) l'.
Proof.
  intros Hmono Hinv. destruct ev as [file|text|].
  - exists l. exact Hinv.
  - exists l. exact Hinv.
  - simpl.
    destruct (storeImage_cases w) as (_ & Hclock & [Hsame | Hstored]).
    + destruct Hsame as (Hstore & Hreads & _).
      exists l. destruct Hinv as (Htext & Hsorted & Hstamps).
      unfold session_in_order, holds_list, stored_text in *.
      rewrite Hstore, Hclock.
      split; [exact Htext|]. split; [exact Hsorted|].
      eapply Forall_impl; [exact Hstamps|]. intros r (k & Hk & Hr).
      exists k. split; [lia | exact Hr].
    + destruct Hstored as (hash & l0 & Hread & Hstore & Hreads & _).
      destruct Hinv as (Htext & Hsorted & Hstamps).
      unfold completion in Hread.
      rewrite (readAll_of_holds w l Htext) in Hread.
      injection Hread as <-.
      eexists. unfold session_in_order, holds_list, stored_text.
      rewrite Hstore, Hclock, Hreads, lookup_insert_eq.
      split; [right; reflexivity|]. split.
      * constructor; [exact Hsorted|].
        destruct l as [|y l]; constructor. simpl.
        apply Forall_cons in Hstamps as [(k & Hk & Hy) _].
        rewrite Hy.
        pose proof (Hmono k (Datatypes.S (clock_reads (browser w)))). lia.
      * constructor.
        -- exists (Datatypes.S (clock_reads (browser w))).
           split; [lia | reflexivity].
        -- eapply Forall_impl; [exact Hstamps|]. intros r (k & Hk & Hr).
           exists k. split; [lia | exact Hr].
Qed.

Lemma run_in_order (evs : list Home.Event) (w : World Home.State)
    (l : list StoredImage) :
  (forall i j : nat, (i <= j)%nat ->
                     clock (browser w) i <= clock (browser w) j) ->
  session_in_order w l ->
  exists l', session_in_order (Home.run evs w) l'.
Proof.
  revert w l. induction evs as [|ev evs IH]; intros w l Hmono Hinv.
  - exists l. exact Hinv.
  - destruct (handle_in_order ev w l Hmono Hinv) as [l1 Hinv1].
    apply (IH (exec (Home.handle ev) w) l1); [|exact Hinv1].
    rewrite handle_clock. exact Hmono.
Qed.

(** X11.  Under a clock that never goes back, the stored list of a session that
    starts without one is itself newest first, and the gallery shows the
    records in exactly the stored order: the latest store first. *)
Theorem gallery_shows_latest_store_first
    (evs : list Home.Event) (w : World Home.State) :
  stored_text w = None ->
  (forall i j : nat, (i <= j)%nat ->
                     clock (browser w) i <= clock (browser w) j) ->
  exists l,
    Home.readAll (Home.run evs w) = (Return l, Home.run evs w) /\
    newest_first l /\
    Feed.images
      (page (exec Feed.loadImages (Feed.mount (browser (Home.run evs w)))))
    = l.
Proof.
  intros Hnone Hmono.
  assert (Hinv : session_in_order w []).
  { split; [now left|]. split; constructor. }
  destruct (run_in_order evs w [] Hmono Hinv) as (l & Hheld & Hsorted & _).
  exists l. split; [now apply readAll_of_holds|].
  split; [now apply Sorted_newest_first|].
  destruct Hheld as [[Htext ->] | Htext].
  - unfold exec.
    rewrite (loadImages_mount (browser (Home.run evs w)) []); [reflexivity|].
    unfold Home.readAll. run_effect. simpl.
    unfold stored_text in Htext. now rewrite Htext.
  - now apply load_of_sorted_store.
Qed.
End GalleryOrder.

Lemma load_keeps_a_newest_first_store_witness :
  Feed.images
    (page (exec (Feed.loadImages (codec := CanonicalJSON.json))
             (Feed.mount
                (Example.tab None
                   {[ STORED_IMAGES :=
                        CanonicalJSON.stringify
                          [Example.dog; Example.cat; Example.cat] ]}
                   Example.ticking))))
  = [Example.dog; Example.cat; Example.cat].
Proof.
  apply (load_keeps_a_newest_first_store (codec := CanonicalJSON.json)
           (laws := CanonicalJSON_laws)
           (Example.tab None
              {[ STORED_IMAGES :=
                   CanonicalJSON.stringify
                     [Example.dog; Example.cat; Example.cat] ]}
              Example.ticking)
           [Example.dog; Example.cat; Example.cat]).
  - reflexivity.
  - intros [|[|[|i]]] a b Ha Hb; simpl in Ha, Hb;
      try discriminate; injection Ha as <-; injection Hb as <-;
      vm_compute; discriminate.
Defined.

Lemma gallery_shows_latest_store_first_witness :
  let w := Example.home (Example.tab (Some "jwt") ∅ Example.frozen) in
  let evs := Example.store_photo "cat" ++ Example.store_photo "dog" in
  exists l,
    Home.readAll (codec := CanonicalJSON.json)
      (Home.run (codec := CanonicalJSON.json) evs w)
    = (Return l, Home.run (codec := CanonicalJSON.json) evs w) /\
    newest_first l /\
    Feed.images
      (page (exec (Feed.loadImages (codec := CanonicalJSON.json))
               (Feed.mount
                  (browser (Home.run (codec := CanonicalJSON.json) evs w)))))
    = l.
Proof.
  apply (gallery_shows_latest_store_first (codec := CanonicalJSON.json)
           (laws := CanonicalJSON_laws)
           (Example.store_photo "cat" ++ Example.store_photo "dog")
           (Example.home (Example.tab (Some "jwt") ∅ Example.frozen))).
  - reflexivity.
  - intros i j Hij. simpl. unfold Example.frozen. lia.
Defined.

(** ** The gallery load, whatever the storage holds *)

Section LoadFacts.
Context {codec : JSON}.

(** X12.  The gallery load never fails and never stays in the loading state: it
    completes with [loading] false, leaves the browser (and so the session
    storage) untouched, and changes nothing in the page but the list of
    images; when the key is absent or holds the empty string, or the text
    does not parse, the list of images is kept as well. *)
Theorem load_always_completes (w : World Feed.State) :
  exists shown,
    Feed.loadImages w
    = (Return tt,
       with_page (Feed.with_loading false)
         (with_page (Feed.with_images shown) w)) /\
    (stored_text w = None \/ stored_text w = Some "" \/
     (exists text e, stored_text w = Some text /\ JSON_parse text = inl e) ->
     shown = Feed.images (page w)).
Proof.
  unfold stored_text, Feed.loadImages. run_effect. simpl.
  destruct (sessionStorage (browser w) !! STORED_IMAGES) as [text|] eqn:Htext;
    simpl.
  - destruct (JS.truthy text) eqn:Htruthy; simpl.
    + destruct (JSON_parse text) as [e|l] eqn:Hparse; simpl.
      * exists (Feed.images (page w)). split; [now destruct w as [[] ?]|].
        reflexivity.
      * eexists. split; [reflexivity|].
        intros [Hno | [Hempty | (text' & e & Ht & He)]].
        -- discriminate.
        -- injection Hempty as ->. discriminate.
        -- injection Ht as <-. rewrite Hparse in He. discriminate.
    + exists (Feed.images (page w)). split; [now destruct w as [[] ?]|].
      reflexivity.
  - exists (Feed.images (page w)). split; [now destruct w as [[] ?]|].
    reflexivity.
Qed.
End LoadFacts.

(** ** What the gallery shows *)

Lemma newest_first_filter (p : StoredImage -> bool) (l : list StoredImage) :
  newest_first l -> newest_first (List.filter p l).
Proof.
  intros Hl. apply newest_first_Sorted in Hl.
  apply Sorted_newest_first.
  apply Sorted_StronglySorted in Hl; [|intros x y z; lia].
  apply StronglySorted_Sorted.
  induction Hl as [|x l Hl IH Hall]; simpl; [constructor|].
  destruct (p x); [|exact IH].
  constructor; [exact IH|].
  rewrite List.Forall_forall in *. intros y Hy.
  apply List.filter_In in Hy as [Hy _]. now apply Hall.
Qed.

(** X13.  Filtering keeps the order of the gallery: whatever the search term, the
    list shown is newest first when the loaded list is, and it never shows
    more records than were loaded. *)
Theorem filtered_gallery_stays_newest_first (w : World Feed.State) :
  newest_first (Feed.images (page w)) ->
  exists shown,
    completion Feed.filteredImages w = Return shown /\
    newest_first shown /\
    (length shown <= length (Feed.images (page w)))%nat.
Proof.
  intros Hsorted. eexists. split; [reflexivity|]. split.
  - now apply newest_first_filter.
  - apply List.filter_length_le.
Qed.

Lemma filtered_gallery_stays_newest_first_witness :
  let w := {| page := Feed.with_searchTerm "A"
                        (Feed.with_images [Example.dog; Example.cat]
                           Feed.initial);
              browser := Example.tab None ∅ Example.ticking |} in
  exists shown,
    completion Feed.filteredImages w = Return shown /\
    newest_first shown /\
    (length shown <= length [Example.dog; Example.cat])%nat.
Proof.
  apply (filtered_gallery_stays_newest_first
           {| page := Feed.with_searchTerm "A"
                        (Feed.with_images [Example.dog; Example.cat]
                           Feed.initial);
              browser := Example.tab None ∅ Example.ticking |}).
  intros [|[|i]] a b Ha Hb; simpl in Ha, Hb;
    try discriminate; injection Ha as <-; injection Hb as <-;
    vm_compute; discriminate.
Defined.

(** ** Connecting the wallet *)

(** X14.  When the wallet accepts the connection and lists its accounts, the
    connection makes exactly the two requests wallet_connect and
    eth_requestAccounts, in this order, records the first account as the
    sub-account address and the second one as the universal address (the
    first one again when there is no second or it is empty), and marks the
    page as connected, with no alert. *)
Theorem connect_records_the_two_addresses
    (w : World Feed.State) (p : Feed.Provider) (accounts : list string) :
  Feed.provider (page w) = Some p ->
  on_wallet_connect (wallet (browser w)) (length (rpc_log (browser w)))
  = inr tt ->
  on_eth_requestAccounts (wallet (browser w))
    (Datatypes.S (length (rpc_log (browser w))))
  = inr (Some accounts) ->
  let w' := exec Feed.connectWallet w in
  completion Feed.connectWallet w = Return tt /\
  rpc_log (browser w')
  = rpc_log (browser w)
    ++ [ {| rpc_method := "wallet_connect"; params := [] |};
         {| rpc_method := "eth_requestAccounts"; params := [] |} ] /\
  Feed.subAccountAddress (page w') = head accounts /\
  Feed.universalAddress (page w')
  = match accounts with
    | _ :: String c second :: _ => Some (String c second)
    | _ => head accounts
    end /\
  Feed.connected (page w') = true /\
  Feed.connectLoading (page w') = false /\
  alerts (browser w') = alerts (browser w).
Proof.
  intros Hp Hconnect Haccounts. unfold Feed.connectWallet. run_effect. simpl.
  rewrite Hp. simpl. rewrite Hconnect. simpl.
  rewrite length_app, Nat.add_1_r, Haccounts. simpl.
  split; [reflexivity|]. split; [now rewrite <- app_assoc|].
  split; [reflexivity|]. split; [|repeat split].
  destruct accounts as [|first [|[|c second] rest]]; reflexivity.
Qed.

Lemma connect_records_the_two_addresses_witness :
  let w := Example.feed_with_provider
             (Example.tab None ∅ Example.ticking) in
  let w' := exec Feed.connectWallet w in
  completion Feed.connectWallet w = Return tt /\
  rpc_log (browser w')
  = [] ++ [ {| rpc_method := "wallet_connect"; params := [] |};
            {| rpc_method := "eth_requestAccounts"; params := [] |} ] /\
  Feed.subAccountAddress (page w') = head ["0xSub"; "0xUniversal"] /\
  Feed.universalAddress (page w') = Some "0xUniversal" /\
  Feed.connected (page w') = true /\
  Feed.connectLoading (page w') = false /\
  alerts (browser w') = [].
Proof.
  apply (connect_records_the_two_addresses
           (Example.feed_with_provider (Example.tab None ∅ Example.ticking))
           Feed.BaseAccountProvider ["0xSub"; "0xUniversal"]); reflexivity.
Defined.

(** X15.  When the wallet rejects either request, or answers the second one with
    no list at all, the connection ends with the alert "Failed to connect
    wallet. Please try again."; the addresses and the connected flag stay as
    they were, the button is released, and after a rejected wallet_connect
    no account is asked for. *)
Theorem connect_failure_alerts_and_keeps_state
    (w : World Feed.State) (p : Feed.Provider) :
  Feed.provider (page w) = Some p ->
  let n := length (rpc_log (browser w)) in
  let connect := {| rpc_method := "wallet_connect"; params := [] |} in
  let request := {| rpc_method := "eth_requestAccounts"; params := [] |} in
  (exists e, on_wallet_connect (wallet (browser w)) n = inl e) \/
  (on_wallet_connect (wallet (browser w)) n = inr tt /\
   ((exists e, on_eth_requestAccounts (wallet (browser w)) (Datatypes.S n)
               = inl e) \/
    on_eth_requestAccounts (wallet (browser w)) (Datatypes.S n) = inr None)) ->
  let w' := exec Feed.connectWallet w in
  completion Feed.connectWallet w = Return tt /\
  alerts (browser w')
  = alerts (browser w) ++ ["Failed to connect wallet. Please try again."] /\
  page w' = Feed.with_connectLoading false (page w) /\
  (rpc_log (browser w') = rpc_log (browser w) ++ [connect] \/
   rpc_log (browser w') = rpc_log (browser w) ++ [connect; request]) /\
  ((exists e, on_wallet_connect (wallet (browser w)) n = inl e) ->
   rpc_log (browser w') = rpc_log (browser w) ++ [connect]).
Proof.
  intros Hp n connect request Hfail. subst n connect request.
  unfold Feed.connectWallet. run_effect. simpl. rewrite Hp. simpl.
  destruct Hfail as [[e He] | [Hok [[e He] | Hnull]]].
  - rewrite He. simpl.
    split; [reflexivity|]. split; [reflexivity|]. split; [reflexivity|].
    split; [now left|]. reflexivity.
  - rewrite Hok. simpl. rewrite length_app, Nat.add_1_r, He. simpl.
    split; [reflexivity|]. split; [reflexivity|]. split; [reflexivity|].
    split; [right; now rewrite <- app_assoc|].
    intros [e' He']. congruence.
  - rewrite Hok. simpl. rewrite length_app, Nat.add_1_r, Hnull. simpl.
    split; [reflexivity|]. split; [reflexivity|]. split; [reflexivity|].
    split; [right; now rewrite <- app_assoc|].
    intros [e' He']. congruence.
Qed.

Lemma connect_failure_alerts_and_keeps_state_witness :
  let w := Example.feed_with_provider
             (Example.with_wallet Example.locked
                (Example.tab None ∅ Example.ticking)) in
  let connect := {| rpc_method := "wallet_connect"; params := [] |} in
  let request := {| rpc_method := "eth_requestAccounts"; params := [] |} in
  let w' := exec Feed.connectWallet w in
  completion Feed.connectWallet w = Return tt /\
  alerts (browser w')
  = [] ++ ["Failed to connect wallet. Please try again."] /\
  page w' = Feed.with_connectLoading false (page w) /\
  (rpc_log (browser w') = [] ++ [connect] \/
   rpc_log (browser w') = [] ++ [connect; request]) /\
  ((exists e, @inl Exn unit (Error "Popup closed") = inl e) ->
   rpc_log (browser w') = [] ++ [connect]).
Proof.
  apply (connect_failure_alerts_and_keeps_state
           (Example.feed_with_provider
              (Example.with_wallet Example.locked
                 (Example.tab None ∅ Example.ticking)))
           Feed.BaseAccountProvider).
  - reflexivity.
  - left. eexists. reflexivity.
Defined.



(** X17.  Connecting and then minting: when the wallet lists at the mint the
    first account it listed at the connection, the mint goes through the
    account check and submits the call from that account.  The four requests
    of the two handlers are, in order, wallet_connect, eth_requestAccounts,
    eth_accounts and wallet_sendCalls. *)
Theorem connect_then_mint_sends_from_the_first_account
    {viem : Viem} (w : World Feed.State) (p : Feed.Provider)
    (first : string) (others others' : list string) (img : StoredImage) :
  Feed.provider (page w) = Some p ->
  let n := length (rpc_log (browser w)) in
  on_wallet_connect (wallet (browser w)) n = inr tt ->
  on_eth_requestAccounts (wallet (browser w)) (Datatypes.S n)
  = inr (Some (first :: others)) ->
  JS.truthy first = true ->
  on_eth_accounts (wallet (browser w)) (Datatypes.S (Datatypes.S n))
  = inr (Some (first :: others')) ->
  rpc_log (browser (exec (Feed.mintNFT img) (exec Feed.connectWallet w)))
  = rpc_log (browser w)
    ++ [ {| rpc_method := "wallet_connect"; params := [] |};
         {| rpc_method := "eth_requestAccounts"; params := [] |};
         {| rpc_method := "eth_accounts"; params := [] |};
         {| rpc_method := "wallet_sendCalls";
            params :=
              [ {| version := "2.0";
                   atomicRequired := true;
                   chainId := "0x14a34";
                   from := first;
                   calls :=
                     [ {| to := Feed.NFT_CONTRACT_ADDRESS;
                          data := encodeFunctionData Feed.NFT_CONTRACT_ABI
                                    "mintNFT" [image img];
                          value := "0x0" |} ] |} ] |} ].
Proof.
  intros Hp n Hconnect Hrequest Hfirst Haccounts. subst n.
  unfold Feed.connectWallet, Feed.mintNFT. run_effect. simpl.
  rewrite Hp. simpl. rewrite Hconnect. simpl.
  rewrite length_app, Nat.add_1_r, Hrequest. simpl.
  rewrite Hp, Hfirst. simpl.
  rewrite !length_app. simpl.
  replace (length (rpc_log (browser w)) + 1 + 1)%nat
    with (Datatypes.S (Datatypes.S (length (rpc_log (browser w))))) by lia.
  rewrite Haccounts. simpl. rewrite String.eqb_refl. simpl.
  destruct (on_wallet_sendCalls _ _ _); simpl;
    now rewrite <- !app_assoc.
Qed.

Lemma connect_then_mint_sends_from_the_first_account_witness :
  rpc_log
    (browser
       (exec (Feed.mintNFT (viem := symbolic_encoder) Example.cat)
          (exec Feed.connectWallet
             (Example.feed_with_provider
                (Example.tab None ∅ Example.ticking)))))
  = [] ++ [ {| rpc_method := "wallet_connect"; params := [] |};
            {| rpc_method := "eth_requestAccounts"; params := [] |};
            {| rpc_method := "eth_accounts"; params := [] |};
            {| rpc_method := "wallet_sendCalls";
               params :=
                 [ {| version := "2.0";
                      atomicRequired := true;
                      chainId := "0x14a34";
                      from := "0xSub";
                      calls :=
                        [ {| to := Feed.NFT_CONTRACT_ADDRESS;
                             data := "0xmintNFT(ipfs://QmHash)";
                             value := "0x0" |} ] |} ] |} ].
Proof.
  apply (connect_then_mint_sends_from_the_first_account
           (viem := symbolic_encoder)
           (Example.feed_with_provider (Example.tab None ∅ Example.ticking))
           Feed.BaseAccountProvider "0xSub" ["0xUniversal"] ["0xUniversal"]
           Example.cat); reflexivity.
Defined.

(** ** Minting *)

Section MintFacts.
Context {viem : Viem}.

(** X18.  A mint never throws and touches nothing but the wallet and the status
    of its own record: the session storage, the fetch log, the alerts, the
    loaded images and the statuses of the other records are as before, the
    record always gets a status, and no record is left marked as being
    minted. *)
Theorem mint_only_touches_its_own_status
    (img : StoredImage) (w : World Feed.State) :
  Feed.mintingImageId (page w) = None ->
  let w' := exec (Feed.mintNFT img) w in
  completion (Feed.mintNFT img) w = Return tt /\
  sessionStorage (browser w') = sessionStorage (browser w) /\
  fetch_log (browser w') = fetch_log (browser w) /\
  alerts (browser w') = alerts (browser w) /\
  Feed.images (page w') = Feed.images (page w) /\
  Feed.mintingImageId (page w') = None /\
  is_Some (Feed.mintStatus (page w') !! id img) /\
  (forall other, other <> id img ->
     Feed.mintStatus (page w') !! other = Feed.mintStatus (page w) !! other).
Proof.
  intros Hidle. unfold Feed.mintNFT. run_effect. simpl.
  repeat (split_match; simpl);
    repeat (split; [first [reflexivity | assumption]|]);
    (split; [rewrite lookup_insert_eq; eauto|]);
    intros other Hother; now rewrite !lookup_insert_ne by congruence.
Qed.

(** X19.  Once the account check has passed, the status of the record tells how
    the wallet answered the call: the success message when it accepted,
    the cross mark and the classified message when it rejected.  In both
    cases one timer of eight seconds is set to clear the status. *)
Theorem mint_status_follows_the_wallet_answer
    (img : StoredImage) (w : World Feed.State)
    (p : Feed.Provider) (sub : string) (others : list string) :
  Feed.provider (page w) = Some p ->
  Feed.subAccountAddress (page w) = Some sub ->
  JS.truthy sub = true ->
  let n := length (rpc_log (browser w)) in
  on_eth_accounts (wallet (browser w)) n = inr (Some (sub :: others)) ->
  let w' := exec (Feed.mintNFT img) w in
  let answer :=
    on_wallet_sendCalls (wallet (browser w)) (Datatypes.S n)
      (Feed.sendCallsParams sub
         (encodeFunctionData Feed.NFT_CONTRACT_ABI "mintNFT" [image img])) in
  Feed.mintStatus (page w') !! id img
  = Some match answer with
         | inr callsId =>
             CHECK_MARK +:+ " NFT Minted Successfully! " +:+ PARTY_POPPER
         | inl error => CROSS_MARK +:+ " " +:+ Feed.mintErrorMsg error
         end /\
  timers (browser w')
  = timers (browser w) ++ [(DeleteMintStatus (id img), 8000)].
Proof.
  intros Hp Hsub Htruthy n Haccounts. subst n.
  unfold Feed.mintNFT. run_effect. simpl.
  rewrite Hp, Hsub, Htruthy. simpl. rewrite Haccounts. simpl.
  rewrite String.eqb_refl. simpl. rewrite length_app, Nat.add_1_r.
  destruct (on_wallet_sendCalls _ _ _) as [e|callsId]; simpl;
    (split; [apply lookup_insert_eq | reflexivity]).
Qed.

(** X20.  The callback of the timer removes the status of the record and only
    this one: after a mint and its timer the statuses are those of before
    the mint, without any for the record. *)
Theorem mint_then_timer_clears_the_status
    (img : StoredImage) (w : World Feed.State) :
  Feed.mintStatus
    (page (exec (Feed.deleteMintStatus (id img)) (exec (Feed.mintNFT img) w)))
  = delete (id img) (Feed.mintStatus (page w)).
Proof.
  unfold Feed.deleteMintStatus, Feed.mintNFT. run_effect. simpl.
  repeat (split_match; simpl);
    now rewrite ?delete_insert_eq.
Qed.
End MintFacts.

Lemma mint_only_touches_its_own_status_witness :
  let w := Example.connected_feed
             (Example.with_wallet Example.declining
                (Example.tab None ∅ Example.ticking)) in
  let w' := exec (Feed.mintNFT (viem := symbolic_encoder) Example.cat) w in
  completion (Feed.mintNFT (viem := symbolic_encoder) Example.cat) w
  = Return tt /\
  sessionStorage (browser w') = sessionStorage (browser w) /\
  fetch_log (browser w') = fetch_log (browser w) /\
  alerts (browser w') = alerts (browser w) /\
  Feed.images (page w') = Feed.images (page w) /\
  Feed.mintingImageId (page w') = None /\
  is_Some (Feed.mintStatus (page w') !! id Example.cat) /\
  (forall other, other <> id Example.cat ->
     Feed.mintStatus (page w') !! other = Feed.mintStatus (page w) !! other).
Proof.
  apply (mint_only_touches_its_own_status (viem := symbolic_encoder)
           Example.cat
           (Example.connected_feed
              (Example.with_wallet Example.declining
                 (Example.tab None ∅ Example.ticking)))).
  reflexivity.
Defined.

Lemma mint_status_follows_the_wallet_answer_witness :
  let w := Example.connected_feed
             (Example.with_wallet Example.declining
                (Example.tab None ∅ Example.ticking)) in
  let w' := exec (Feed.mintNFT (viem := symbolic_encoder) Example.cat) w in
  Feed.mintStatus (page w') !! id Example.cat
  = Some (CROSS_MARK +:+ " "
          +:+ Feed.mintErrorMsg (Error "User rejected the request")) /\
  timers (browser w')
  = [] ++ [(DeleteMintStatus (id Example.cat), 8000)].
Proof.
  apply (mint_status_follows_the_wallet_answer (viem := symbolic_encoder)
           Example.cat
           (Example.connected_feed
              (Example.with_wallet Example.declining
                 (Example.tab None ∅ Example.ticking)))
           Feed.BaseAccountProvider "0xSub" ["0xUniversal"]); reflexivity.
Defined.

(** ** The message of a failed mint *)




(** ** The address an image is shown from *)

Lemma startsWith_app (p s : string) : JS.startsWith (p +:+ s) p = true.
Proof. apply startsWith_spec. now exists s. Qed.

Lemma skip_app (p s : string) : JS.skip (String.length p) (p +:+ s) = s.
Proof. induction p as [|c p IH]; simpl; [reflexivity | exact IH]. Qed.

Lemma replace_prefix (p s r : string) : JS.replace (p +:+ s) p r = r +:+ s.
Proof.
  destruct (p +:+ s) eqn:Hps; simpl; rewrite <- Hps, startsWith_app, skip_app;
    reflexivity.
Qed.

(** X22.  An ipfs:// reference is shown from the gateway address of the same
    hash, any other address is shown as it is, and an address already
    rewritten is not rewritten again. *)
Theorem getImageUrl_goes_through_the_gateway :
  (forall hash,
      Feed.getImageUrl ("ipfs://" +:+ hash)
      = "https://gateway.pinata.cloud/ipfs/" +:+ hash) /\
  (forall address,
      JS.startsWith address "ipfs://" = false ->
      Feed.getImageUrl address = address) /\
  (forall address,
      Feed.getImageUrl (Feed.getImageUrl address) = Feed.getImageUrl address).
Proof.
  assert (Hipfs : forall hash,
             Feed.getImageUrl ("ipfs://" +:+ hash) = Feed.GATEWAY +:+ hash).
  { intros hash. unfold Feed.getImageUrl.
    rewrite startsWith_app, replace_prefix. reflexivity. }
  assert (Hother : forall address,
             JS.startsWith address "ipfs://" = false ->
             Feed.getImageUrl address = address).
  { intros address Hno. unfold Feed.getImageUrl. now rewrite Hno. }
  split; [exact Hipfs|]. split; [exact Hother|].
  intros address.
  destruct (JS.startsWith address "ipfs://") eqn:Hstart.
  - apply startsWith_spec in Hstart as [hash ->].
    rewrite Hipfs. now apply Hother.
  - now rewrite !(Hother address Hstart).
Qed.

(** X23.  The reference returned by a successful upload is shown from the
    gateway address of the hash the pinning service answered. *)
Theorem uploaded_reference_is_shown_from_the_gateway
    (file : File) (w : World Home.State) (jwt hash : string)
    (response : Response) (data : PinataBody) :
  env_PINATA_JWT (browser w) = Some jwt ->
  JS.truthy jwt = true ->
  network (browser w) (length (fetch_log (browser w)))
    (Home.pinFileRequest jwt file) = FetchResolves response ->
  ok response = true ->
  json response = BodyResolves data ->
  IpfsHash data = Some hash ->
  JS.truthy hash = true ->
  exists reference,
    completion (Home.uploadImageToPinata file) w = Return reference /\
    Feed.getImageUrl reference
    = "https://gateway.pinata.cloud/ipfs/" +:+ hash.
Proof.
  intros Henv Hjwt Hnet Hok Hjson Hhash Htruthy.
  exists ("ipfs://" +:+ hash). unfold completion.
  rewrite (upload_success file w jwt hash response data) by assumption.
  split; [reflexivity|]. unfold Feed.getImageUrl.
  now rewrite startsWith_app, replace_prefix.
Qed.

Lemma uploaded_reference_is_shown_from_the_gateway_witness :
  exists reference,
    completion (Home.uploadImageToPinata Example.photo)
      (Example.home (Example.tab (Some "jwt") ∅ Example.ticking))
    = Return reference /\
    Feed.getImageUrl reference
    = "https://gateway.pinata.cloud/ipfs/" +:+ "QmHash".
Proof.
  apply (uploaded_reference_is_shown_from_the_gateway Example.photo
           (Example.home (Example.tab (Some "jwt") ∅ Example.ticking))
           "jwt" "QmHash"
           {| ok := true; status := 200;
              json := BodyResolves {| IpfsHash := Some "QmHash";
                                      error_details := None |} |}
           {| IpfsHash := Some "QmHash"; error_details := None |});
    reflexivity.
Defined.
